(** * AO Trading signal ingestion: a shallow embedding of
      [signal_parser.py] and [discord_reader.py]

    The development follows the two Python modules:
    - Part I    Python values: strings as sequences of code points, exceptions
    - Part II   the [re] matcher (backtracking, leftmost, greedy) and the
                patterns of both modules
    - Part III  binary64 floats: [float], [repr], [int / float]
    - Part IV   [hashlib.md5]
    - Part V    [signal_parser]: [parse_signal], [signal_hash]
    - Part VI   [discord_reader]: [fetch_after], [extract_text],
                [message_timestamp_unix]
    - Part VII  the properties. *)

From Stdlib Require Import String Ascii ZArith List Bool Lia.
From Stdlib Require Import Floats.SpecFloat.
Import ListNotations.
Open Scope Z_scope.

Set Implicit Arguments.

(* ================================================================== *)
(** * Part I. Python values *)
(* ================================================================== *)

(** A Python [str] is a sequence of Unicode code points. *)
Definition char := Z.
Definition str := list char.

Definition str_eqb (a b : str) : bool :=
  if list_eq_dec Z.eq_dec a b then true else false.

(** UTF-8: decoding is used to write literals of this file, encoding is
    [str.encode("utf-8")]. *)
Fixpoint utf8_decode (bs : list Z) : str :=
  match bs with
  | [] => []
  | b0 :: t0 =>
    if b0 <? 0x80 then b0 :: utf8_decode t0
    else match t0 with
    | [] => [0xFFFD]
    | b1 :: t1 =>
      if b0 <? 0xE0
      then Z.lor (Z.shiftl (Z.land b0 0x1F) 6) (Z.land b1 0x3F) :: utf8_decode t1
      else match t1 with
      | [] => [0xFFFD]
      | b2 :: t2 =>
        if b0 <? 0xF0
        then Z.lor (Z.shiftl (Z.land b0 0x0F) 12)
               (Z.lor (Z.shiftl (Z.land b1 0x3F) 6) (Z.land b2 0x3F))
               :: utf8_decode t2
        else match t2 with
        | [] => [0xFFFD]
        | b3 :: t3 =>
          Z.lor (Z.shiftl (Z.land b0 0x07) 18)
            (Z.lor (Z.shiftl (Z.land b1 0x3F) 12)
               (Z.lor (Z.shiftl (Z.land b2 0x3F) 6) (Z.land b3 0x3F)))
            :: utf8_decode t3
        end
      end
    end
  end.

Definition bytes_of_string (s : string) : list Z :=
  map (fun a => Z.of_nat (nat_of_ascii a)) (list_ascii_of_string s).

(** [py "..."] is the Python string written between the quotes. *)
Definition py (s : string) : str := utf8_decode (bytes_of_string s).

(** Exceptions that the two modules can meet. *)
Inductive exn :=
| IndexError
| KeyError
| ValueError
| TypeError
| AttributeError
| OverflowError
| UnicodeEncodeError.

(** The outcome of a Python call: a value, or a raised exception. *)
Inductive pyresult (A : Type) :=
| Ret (a : A)
| Raise (e : exn).
Arguments Ret {A} a.
Arguments Raise {A} e.

Definition bind {A B} (c : pyresult A) (f : A -> pyresult B) : pyresult B :=
  match c with
  | Ret a => f a
  | Raise e => Raise e
  end.

Notation "x <- c ;; k" := (bind c (fun x => k))
  (at level 61, c at next level, right associativity).

Definition utf8_encode_char (c : char) : pyresult (list Z) :=
  if c <? 0x80 then Ret [c]
  else if c <? 0x800 then
    Ret [Z.lor 0xC0 (Z.shiftr c 6); Z.lor 0x80 (Z.land c 0x3F)]
  else if (0xD800 <=? c) && (c <=? 0xDFFF) then Raise UnicodeEncodeError
  else if c <? 0x10000 then
    Ret [Z.lor 0xE0 (Z.shiftr c 12); Z.lor 0x80 (Z.land (Z.shiftr c 6) 0x3F);
         Z.lor 0x80 (Z.land c 0x3F)]
  else
    Ret [Z.lor 0xF0 (Z.shiftr c 18); Z.lor 0x80 (Z.land (Z.shiftr c 12) 0x3F);
         Z.lor 0x80 (Z.land (Z.shiftr c 6) 0x3F); Z.lor 0x80 (Z.land c 0x3F)].

Fixpoint utf8_encode (s : str) : pyresult (list Z) :=
  match s with
  | [] => Ret []
  | c :: s' =>
    b <- utf8_encode_char c ;;
    bs <- utf8_encode s' ;;
    Ret (b ++ bs)
  end.

(** ** The Unicode character database

    [str.upper], [\d] and [\w] consult the interpreter's Unicode tables,
    which are no part of the repository.  Their behaviour on ASCII is fixed
    below; outside ASCII it is a parameter of the model. *)
Record ucd := {
  ucd_upper : char -> str;        (* full uppercase mapping *)
  ucd_digit : char -> option Z;   (* decimal digit value, category Nd *)
  ucd_word  : char -> bool        (* alphanumeric, as [\w] has it *)
}.

Definition is_ascii (c : char) : bool := (0 <=? c) && (c <? 128).
Definition in_range (lo hi c : char) : bool := (lo <=? c) && (c <=? hi).

Definition upper_char (U : ucd) (c : char) : str :=
  if is_ascii c then [if in_range 97 122 c then c - 32 else c]
  else ucd_upper U c.

(** [s.upper()] *)
Definition upper (U : ucd) (s : str) : str := flat_map (upper_char U) s.

(** [[0-9]] *)
Definition ascii_digit (c : char) : bool := in_range 48 57 c.

(** [\d] on a [str] pattern: any decimal digit; its value. *)
Definition digit_value (U : ucd) (c : char) : option Z :=
  if is_ascii c then (if ascii_digit c then Some (c - 48) else None)
  else ucd_digit U c.

Definition unicode_digit (U : ucd) (c : char) : bool :=
  match digit_value U c with Some _ => true | None => false end.

(** [\w] on a [str] pattern. *)
Definition word_char (U : ucd) (c : char) : bool :=
  if is_ascii c
  then in_range 48 57 c || in_range 65 90 c || in_range 97 122 c || (c =? 95)
  else ucd_word U c.

(** [\s] on a [str] pattern, which is also what [str.strip()] removes. *)
Definition is_space (c : char) : bool :=
  in_range 0x09 0x0D c || in_range 0x1C 0x20 c || (c =? 0x85) || (c =? 0xA0)
  || (c =? 0x1680) || in_range 0x2000 0x200A c || (c =? 0x2028)
  || (c =? 0x2029) || (c =? 0x202F) || (c =? 0x205F) || (c =? 0x3000).

(** Case folding of [re.IGNORECASE] for the pattern characters used here
    (ASCII, and caseless punctuation): besides the two ASCII cases, [i]
    also matches U+0130 and U+0131, [s] matches U+017F and [k] matches
    U+212A. *)
Definition re_lower (c : char) : char :=
  if (c =? 0x130) || (c =? 0x131) then 105
  else if c =? 0x17F then 115
  else if c =? 0x212A then 107
  else if in_range 65 90 c then c + 32
  else c.

Definition ci (p c : char) : bool := re_lower c =? re_lower p.

(** A table for running the examples: Latin-1 and the four letters above
    for [upper] and [\w], the decimal digit blocks of Unicode 14 for [\d]. *)
Definition decimal_zeros : list Z :=
  [1632; 1776; 1984; 2406; 2534; 2662; 2790; 2918; 3046; 3174; 3302; 3430;
   3558; 3664; 3792; 3872; 4160; 4240; 6112; 6160; 6470; 6608; 6784; 6800;
   6992; 7088; 7232; 7248; 42528; 43216; 43264; 43472; 43504; 43600; 44016;
   65296; 66720; 68912; 69734; 69872; 69942; 70096; 70384; 70736; 70864;
   71248; 71360; 71472; 71904; 72016; 72784; 73040; 73120; 92768; 92864;
   93008; 120782; 120792; 120802; 120812; 120822; 123200; 123632; 125264;
   130032].

Definition sample_upper (c : char) : str :=
  if c =? 0xB5 then [0x39C]
  else if c =? 0xDF then [83; 83]
  else if c =? 0xFF then [0x178]
  else if in_range 0xE0 0xFE c && negb (c =? 0xF7) then [c - 32]
  else if c =? 0x131 then [73]
  else if c =? 0x17F then [83]
  else [c].

Definition sample_digit (c : char) : option Z :=
  match find (fun z => in_range z (z + 9) c) decimal_zeros with
  | Some z => Some (c - z)
  | None => None
  end.

Definition sample_word (c : char) : bool :=
  (c =? 0xAA) || (c =? 0xB5) || (c =? 0xBA) || (c =? 0xB2) || (c =? 0xB3)
  || (c =? 0xB9) || in_range 0xBC 0xBE c
  || (in_range 0xC0 0xFF c && negb (c =? 0xD7) && negb (c =? 0xF7))
  || (c =? 0x130) || (c =? 0x131) || (c =? 0x17F) || (c =? 0x212A)
  || (match sample_digit c with Some _ => true | None => false end).

Definition sample_ucd : ucd :=
  {| ucd_upper := sample_upper; ucd_digit := sample_digit;
     ucd_word := sample_word |}.

(* ================================================================== *)
(** * Part II. The [re] matcher *)
(* ================================================================== *)

(** The patterns of both modules use literals, character classes, groups,
    alternation, and the greedy quantifiers [*], [+], [?]; [*] and [+] are
    only ever applied to a single character or class. *)
Inductive regex :=
| Eps
| Chr (p : char -> bool)
| Cat (r1 r2 : regex)
| Alt (r1 r2 : regex)
| Star (p : char -> bool)
| Grp (i : nat) (r : regex).

(** Captures, most recent first. *)
Definition groups := list (nat * str).

Fixpoint lookup_group (g : groups) (i : nat) : option str :=
  match g with
  | [] => None
  | (j, w) :: g' => if Nat.eqb i j then Some w else lookup_group g' i
  end.

(** [m.group(i)]; every group of the patterns below takes part in every
    match of its pattern. *)
Definition group (g : groups) (i : nat) : str :=
  match lookup_group g i with Some w => w | None => [] end.

(** A match: the captures and the text after the match. *)
Definition rmatch_result := option (groups * str).

(** Greedy repetition: the longest run first, giving characters back one at
    a time while the rest of the pattern fails. *)
Fixpoint star_loop (p : char -> bool) (k : str -> rmatch_result) (s : str)
  : rmatch_result :=
  match s with
  | c :: s' =>
    if p c then
      match star_loop p k s' with
      | Some m => Some m
      | None => k s
      end
    else k s
  | [] => k []
  end.

(** Backtracking matcher in continuation-passing style: [k] is the rest of
    the pattern. Alternatives are tried left to right. *)
Fixpoint rmatch (r : regex) (s : str) (g : groups)
    (k : str -> groups -> rmatch_result) : rmatch_result :=
  match r with
  | Eps => k s g
  | Chr p =>
    match s with
    | c :: s' => if p c then k s' g else None
    | [] => None
    end
  | Cat r1 r2 => rmatch r1 s g (fun s1 g1 => rmatch r2 s1 g1 k)
  | Alt r1 r2 =>
    match rmatch r1 s g k with
    | Some m => Some m
    | None => rmatch r2 s g k
    end
  | Star p => star_loop p (fun s' => k s' g) s
  | Grp i r1 =>
    rmatch r1 s g
      (fun s1 g1 => k s1 ((i, firstn (length s - length s1) s) :: g1))
  end.

(** [pattern.match(text)]: a match starting at the first character. *)
Definition match_at (r : regex) (s : str) : rmatch_result :=
  rmatch r s [] (fun s' g => Some (g, s')).

(** [pattern.search(text)]: the leftmost match. *)
Fixpoint search (r : regex) (s : str) : rmatch_result :=
  match match_at r s with
  | Some m => Some m
  | None =>
    match s with
    | [] => None
    | _ :: s' => search r s'
    end
  end.

(** [pattern.finditer(text)]: the successive non-overlapping matches. After
    a match of [n > 0] characters the scan resumes [n] characters further;
    [skip] counts the characters of the current match still to pass. (No
    pattern iterated here matches the empty string.) *)
Fixpoint finditer_from (r : regex) (skip : nat) (s : str) : list groups :=
  match s with
  | [] => []
  | _ :: s' =>
    match skip with
    | S n => finditer_from r n s'
    | O =>
      match match_at r s with
      | Some (g, rest) =>
        g :: finditer_from r (length s - length rest - 1) s'
      | None => finditer_from r 0 s'
      end
    end
  end.

Definition finditer (r : regex) (s : str) : list groups := finditer_from r 0 s.

(** [re.sub(pattern, "", text)]: every non-overlapping match deleted. *)
Fixpoint sub_from (r : regex) (skip : nat) (s : str) : str :=
  match s with
  | [] => []
  | c :: s' =>
    match skip with
    | S n => sub_from r n s'
    | O =>
      match match_at r s with
      | Some (_, rest) =>
        match (length s - length rest)%nat with
        | O => c :: sub_from r 0 s'
        | S n => sub_from r n s'
        end
      | None => c :: sub_from r 0 s'
      end
    end
  end.

Definition sub_delete (r : regex) (s : str) : str := sub_from r 0 s.

(** ** Pattern combinators *)
Definition plus (p : char -> bool) : regex := Cat (Chr p) (Star p).
Definition opt (r : regex) : regex := Alt r Eps.
Definition rseq (rs : list regex) : regex := fold_right Cat Eps rs.
Definition one (c : char) : regex := Chr (Z.eqb c).

(** A literal under [re.I], and a literal matched exactly. *)
Definition lit_ci (s : string) : regex := rseq (map (fun c => Chr (ci c)) (py s)).
Definition lit (s : string) : regex := rseq (map one (py s)).

(** [[A-Z0-9]] under [re.I] *)
Definition alnum_ci (c : char) : bool :=
  in_range 97 122 (re_lower c) || ascii_digit c.

(** [[:\s]] *)
Definition colon_or_space (c : char) : bool := (c =? 58) || is_space c.

(** [[-–—]]: hyphen-minus, en dash, em dash *)
Definition dash (c : char) : bool := (c =? 45) || (c =? 0x2013) || (c =? 0x2014).

(** ** The patterns of [signal_parser.py] *)

(** [NUM = r"([0-9]+(?:\.[0-9]+)?)"], as group [i] of the enclosing pattern *)
Definition NUM (i : nat) : regex :=
  Grp i (Cat (plus ascii_digit) (opt (Cat (one 46) (plus ascii_digit)))).

(** [NEW SIGNAL|NEW TRADE SIGNAL|(?:LONG|SHORT)\s+SIGNAL|Trade\s+Signal] *)
Definition RE_NEW_SIGNAL : regex :=
  Alt (lit_ci "NEW SIGNAL")
 (Alt (lit_ci "NEW TRADE SIGNAL")
 (Alt (rseq [Alt (lit_ci "LONG") (lit_ci "SHORT"); plus is_space; lit_ci "SIGNAL"])
      (rseq [lit_ci "Trade"; plus is_space; lit_ci "Signal"]))).

(** [TRADE CANCELLED|TRADE CLOSED] *)
Definition RE_CANCELLED : regex :=
  Alt (lit_ci "TRADE CANCELLED") (lit_ci "TRADE CLOSED").

(** The inline pattern of [parse_signal]: hourglass (U+23F3), [\s*closed] *)
Definition RE_HOURGLASS_CLOSED : regex :=
  rseq [one 0x23F3; Star is_space; lit_ci "closed"].

(** [(LONG|SHORT)\s+SIGNAL\s*[-–—]\s*([A-Z0-9]+)\s*/\s*([A-Z0-9]+)] *)
Definition RE_SIDE_SYMBOL : regex :=
  rseq [Grp 1 (Alt (lit_ci "LONG") (lit_ci "SHORT")); plus is_space;
       lit_ci "SIGNAL"; Star is_space; Chr dash; Star is_space;
       Grp 2 (plus alnum_ci); Star is_space; one 47; Star is_space;
       Grp 3 (plus alnum_ci)].

(** [Entry[:\s]*\$?] NUM *)
Definition RE_ENTRY : regex :=
  rseq [lit_ci "Entry"; Star colon_or_space; opt (one 36); NUM 1].

(** [TP(\d+)[:\s]*\$?] NUM *)
Definition RE_TP (U : ucd) : regex :=
  rseq [lit_ci "TP"; Grp 1 (plus (unicode_digit U)); Star colon_or_space;
       opt (one 36); NUM 2].

(** [DCA\s*#?\s*1?[:\s]*\$?] NUM *)
Definition RE_DCA : regex :=
  rseq [lit_ci "DCA"; Star is_space; opt (one 35); Star is_space;
       opt (one 49); Star colon_or_space; opt (one 36); NUM 1].

(** [Stop\s*Loss[:\s]*\$?] NUM *)
Definition RE_SL : regex :=
  rseq [lit_ci "Stop"; Star is_space; lit_ci "Loss"; Star colon_or_space;
       opt (one 36); NUM 1].

(** ** The patterns of [discord_reader.py] (no flags) *)

(** [<@[!&]?\d+>] *)
Definition RE_MENTION (U : ucd) : regex :=
  rseq [lit "<@"; opt (Chr (fun c => (c =? 33) || (c =? 38)));
       plus (unicode_digit U); one 62].

(** [<#\d+>] *)
Definition RE_CHANNEL (U : ucd) : regex :=
  rseq [lit "<#"; plus (unicode_digit U); one 62].

(** [<a?:\w+:\d+>] *)
Definition RE_EMOJI (U : ucd) : regex :=
  rseq [one 60; opt (one 97); one 58; plus (word_char U); one 58;
       plus (unicode_digit U); one 62].

(* ================================================================== *)
(** * Part III. Floats *)
(* ================================================================== *)

(** A Python [float] is an IEEE-754 binary64 value. *)
Definition float := spec_float.
Definition prec : Z := 53.
Definition emax : Z := 1024.

Definition fzero : float := S754_zero false.

(** The double nearest to [n / d], ties to even ([0 <= n], [0 < d]): the
    quotient is taken with enough bits for the rounding of [SpecFloat] to be
    the rounding of the exact quotient. *)
Definition float_of_ratio (n d : Z) : float :=
  if n =? 0 then fzero
  else
    let '(q, e, l) := SFdiv_core_binary prec emax n 0 d 0 in
    binary_round_aux prec emax false q e l.

(** [float(i)] for an [int]: correctly rounded, [OverflowError] when the
    result is no finite double. *)
Definition float_of_int (i : Z) : pyresult float :=
  match binary_normalize prec emax i 0 false with
  | S754_infinity _ => Raise OverflowError
  | x => Ret x
  end.

(** [x / y], [x + y] and [x > y] on floats *)
Definition fdiv (x y : float) : float := SFdiv prec emax x y.
Definition fadd (x y : float) : float := SFadd prec emax x y.
Definition fgt (x y : float) : bool := SFltb y x.

(** [i / y] for an [int] and a non-zero [float] *)
Definition int_truediv_float (i : Z) (y : float) : pyresult float :=
  x <- float_of_int i ;;
  Ret (fdiv x y).

(** The value of a string of ASCII digits. *)
Definition decimal_value (s : str) : Z :=
  fold_left (fun acc c => 10 * acc + (c - 48)) s 0.

Definition all_digits (s : str) : bool :=
  match s with [] => false | _ => forallb ascii_digit s end.

(** Splitting at the first ['.'] *)
Fixpoint split_dot (s : str) : str * option str :=
  match s with
  | [] => ([], None)
  | c :: s' =>
    if c =? 46 then ([], Some s')
    else let '(a, b) := split_dot s' in (c :: a, b)
  end.

(** [float(s)] on the strings that [NUM] captures, digits with an optional
    fraction. [float] is correctly rounded. The other spellings that
    [float] accepts (signs, exponents, [inf], [nan], underscores, blanks
    around, a missing integer or fraction part) never reach it from
    [parse_signal] and are not modelled: they are answered [ValueError]
    like the strings [float] rejects. *)
Definition py_float (s : str) : pyresult float :=
  match split_dot s with
  | (ip, None) =>
    if all_digits ip then Ret (float_of_ratio (decimal_value ip) 1)
    else Raise ValueError
  | (ip, Some fp) =>
    if all_digits ip && all_digits fp
    then Ret (float_of_ratio (decimal_value (ip ++ fp))
                (10 ^ Z.of_nat (length fp)))
    else Raise ValueError
  end.

(** [s.replace(",", "")] *)
Definition remove_commas (s : str) : str :=
  filter (fun c => negb (c =? 44)) s.

(** ** [repr] of a float: the shortest decimal string that reads back as
       the same double *)

(** [n * 10^p / (d * 10^-p)] as a pair of integers *)
Definition scale10 (n d p : Z) : Z * Z :=
  if 0 <=? p then (n * 10 ^ p, d) else (n, d * 10 ^ (- p)).

(** The least [p >= lo] with [n / d < 10^p], looking at [fuel] values. *)
Fixpoint decpt_from (fuel : nat) (n d p : Z) : Z :=
  match fuel with
  | O => p
  | S f =>
    let '(a, b) := scale10 n d (- p) in
    if a <? b then p else decpt_from f n d (p + 1)
  end.

(** The decimal point of [n / d > 0]: [10^(p-1) <= n / d < 10^p]. *)
Definition decpt_of (n d : Z) : Z :=
  let l := Z.log2 n - Z.log2 d in
  decpt_from 8 n d ((l - 1) * 30103 / 100000 - 1).

Fixpoint strip_zeros (fuel : nat) (c p : Z) : Z * Z :=
  match fuel with
  | O => (c, p)
  | S f => if (c mod 10 =? 0) && negb (c =? 0)
           then strip_zeros f (c / 10) (p + 1) else (c, p)
  end.

(** The [k]-digit decimals next to [x = n / d], nearest first, each as
    [c * 10^p]. *)
Definition neighbours (n d dp : Z) (k : Z) : list (Z * Z) :=
  let p := dp - k in
  let '(a, b) := scale10 n d (- p) in
  let f := a / b in
  let r := a mod b in
  if r =? 0 then [(f, p)]
  else
    match 2 * r ?= b with
    | Lt => [(f, p); (f + 1, p)]
    | Gt => [(f + 1, p); (f, p)]
    | Eq => if Z.even f then [(f, p); (f + 1, p)] else [(f + 1, p); (f, p)]
    end.

Definition reads_back (x : float) (cp : Z * Z) : bool :=
  let '(c, p) := cp in
  let '(a, b) := scale10 c 1 p in
  match SFcompare (float_of_ratio a b) x with
  | Some Eq => true
  | _ => false
  end.

(** The shortest digits: the first length [k = 1, 2, ...] at which a
    neighbour reads back as [x]. Seventeen digits always do. *)
Fixpoint shortest_from (fuel : nat) (x : float) (n d dp k : Z) : Z * Z :=
  match fuel with
  | O => (0, 0)
  | S f =>
    match find (reads_back x) (neighbours n d dp k) with
    | Some (c, p) => strip_zeros 20 c p
    | None => shortest_from f x n d dp (k + 1)
    end
  end.

Definition exact_ratio (m : positive) (e : Z) : Z * Z :=
  if 0 <=? e then (Zpos m * 2 ^ e, 1) else (Zpos m, 2 ^ (- e)).

(** Decimal digits of a non-negative integer, most significant first. *)
Fixpoint digits_from (fuel : nat) (n : Z) (acc : str) : str :=
  match fuel with
  | O => acc
  | S f =>
    let acc' := (48 + n mod 10) :: acc in
    if n <? 10 then acc' else digits_from f (n / 10) acc'
  end.

Definition str_of_Z (n : Z) : str :=
  if n <? 0 then 45 :: digits_from (S (Z.to_nat (Z.log2 (- n)))) (- n) []
  else digits_from (S (Z.to_nat (Z.log2 n))) n [].

Definition zeros (k : Z) : str := repeat 48 (Z.to_nat k).

(** The layout of [repr]: exponent notation when the decimal point lies
    left of [-3] or right of [16], plain notation with at least one
    fraction digit otherwise. *)
Definition format_short (c p : Z) : str :=
  let ds := str_of_Z c in
  let nd := Z.of_nat (length ds) in
  let decpt := nd + p in
  if (decpt <=? -4) || (16 <? decpt) then
    let ex := decpt - 1 in
    let mant :=
      match ds with
      | [] => []
      | d0 :: [] => [d0]
      | d0 :: rest => d0 :: 46 :: rest
      end in
    let exd := str_of_Z (Z.abs ex) in
    mant ++ [101] ++ [if ex <? 0 then 45 else 43]
      ++ (if Z.abs ex <? 10 then 48 :: exd else exd)
  else if decpt <=? 0 then [48; 46] ++ zeros (- decpt) ++ ds
  else if decpt <? nd then
    firstn (Z.to_nat decpt) ds ++ [46] ++ skipn (Z.to_nat decpt) ds
  else ds ++ zeros (decpt - nd) ++ [46; 48].

Definition float_repr (x : float) : str :=
  match x with
  | S754_nan => py "nan"
  | S754_zero s => (if s then [45] else []) ++ py "0.0"
  | S754_infinity s => (if s then [45] else []) ++ py "inf"
  | S754_finite s m e =>
    let '(n, d) := exact_ratio m e in
    let '(c, p) := shortest_from 17 (S754_finite false m e) n d (decpt_of n d) 1 in
    (if s then [45] else []) ++ format_short c p
  end.

(* ================================================================== *)
(** * Part IV. [hashlib.md5] (RFC 1321) *)
(* ================================================================== *)

Module MD5.

(** 32-bit words as [Z], wrap-around written out. *)
Definition w32 (x : Z) : Z := x mod 2 ^ 32.
Definition not32 (x : Z) : Z := Z.lxor x 0xFFFFFFFF.
Definition rotl32 (x s : Z) : Z :=
  w32 (Z.lor (Z.shiftl x s) (Z.shiftr x (32 - s))).

(** [K[i] = floor(2^32 * abs(sin(i + 1)))] *)
Definition K : list Z :=
  [3614090360; 3905402710; 606105819; 3250441966; 4118548399; 1200080426;
   2821735955; 4249261313; 1770035416; 2336552879; 4294925233; 2304563134;
   1804603682; 4254626195; 2792965006; 1236535329; 4129170786; 3225465664;
   643717713; 3921069994; 3593408605; 38016083; 3634488961; 3889429448;
   568446438; 3275163606; 4107603335; 1163531501; 2850285829; 4243563512;
   1735328473; 2368359562; 4294588738; 2272392833; 1839030562; 4259657740;
   2763975236; 1272893353; 4139469664; 3200236656; 681279174; 3936430074;
   3572445317; 76029189; 3654602809; 3873151461; 530742520; 3299628645;
   4096336452; 1126891415; 2878612391; 4237533241; 1700485571; 2399980690;
   4293915773; 2240044497; 1873313359; 4264355552; 2734768916; 1309151649;
   4149444226; 3174756917; 718787259; 3951481745].

Definition shifts : list Z :=
  [7; 12; 17; 22; 7; 12; 17; 22; 7; 12; 17; 22; 7; 12; 17; 22;
   5; 9; 14; 20; 5; 9; 14; 20; 5; 9; 14; 20; 5; 9; 14; 20;
   4; 11; 16; 23; 4; 11; 16; 23; 4; 11; 16; 23; 4; 11; 16; 23;
   6; 10; 15; 21; 6; 10; 15; 21; 6; 10; 15; 21; 6; 10; 15; 21].

Definition state := (Z * Z * Z * Z)%type.

Definition init : state := (0x67452301, 0xefcdab89, 0x98badcfe, 0x10325476).

(** One of the 64 operations on the block [M] of sixteen words. *)
Definition step (M : list Z) (st : state) (i : nat) : state :=
  let '(a, b, c, d) := st in
  let iz := Z.of_nat i in
  let '(f, g) :=
    if iz <? 16 then (Z.lor (Z.land b c) (Z.land (not32 b) d), iz)
    else if iz <? 32 then
      (Z.lor (Z.land d b) (Z.land (not32 d) c), (5 * iz + 1) mod 16)
    else if iz <? 48 then (Z.lxor b (Z.lxor c d), (3 * iz + 5) mod 16)
    else (Z.lxor c (Z.lor b (not32 d)), (7 * iz) mod 16) in
  let f' := w32 (f + a + nth i K 0 + nth (Z.to_nat g) M 0) in
  (d, w32 (b + rotl32 f' (nth i shifts 0)), b, c).

(** Little-endian words of a block of bytes. *)
Fixpoint words (bs : list Z) : list Z :=
  match bs with
  | b0 :: b1 :: b2 :: b3 :: rest =>
    (b0 + Z.shiftl b1 8 + Z.shiftl b2 16 + Z.shiftl b3 24) :: words rest
  | _ => []
  end.

Definition compress (st : state) (block : list Z) : state :=
  let '(a0, b0, c0, d0) := st in
  let '(a, b, c, d) := fold_left (step (words block)) (seq 0 64) st in
  (w32 (a0 + a), w32 (b0 + b), w32 (c0 + c), w32 (d0 + d)).

Definition le_bytes (k : nat) (x : Z) : list Z :=
  map (fun i => Z.land (Z.shiftr x (8 * Z.of_nat i)) 0xFF) (seq 0 k).

(** The message, a [0x80] byte, zeros up to 56 modulo 64, and the length
    in bits as 64 bits. *)
Definition pad (msg : list Z) : list Z :=
  let n := Z.of_nat (length msg) in
  let z := (55 - n) mod 64 in
  msg ++ [0x80] ++ repeat 0 (Z.to_nat z) ++ le_bytes 8 ((8 * n) mod 2 ^ 64).

Fixpoint blocks (nblocks : nat) (st : state) (bs : list Z) : state :=
  match nblocks with
  | O => st
  | S k => blocks k (compress st (firstn 64 bs)) (skipn 64 bs)
  end.

Definition digest (msg : list Z) : list Z :=
  let p := pad msg in
  let '(a, b, c, d) := blocks (length p / 64) init p in
  le_bytes 4 a ++ le_bytes 4 b ++ le_bytes 4 c ++ le_bytes 4 d.

Definition hex_digit (x : Z) : char := if x <? 10 then 48 + x else 87 + x.

(** [hashlib.md5(msg).hexdigest()] *)
Definition hexdigest (msg : list Z) : str :=
  flat_map (fun b => [hex_digit (b / 16); hex_digit (b mod 16)]) (digest msg).

End MD5.

(* ================================================================== *)
(** * Part V. [signal_parser.py] *)
(* ================================================================== *)

(** [s.strip()] *)
Fixpoint lstrip (s : str) : str :=
  match s with
  | c :: s' => if is_space c then lstrip s' else s
  | [] => []
  end.

Definition strip (s : str) : str := rev (lstrip (rev (lstrip s))).

(** ** [int] on a string

    [int(s)] first brings [s] to ASCII: a code point below U+007F stays, and
    from U+007F on white space becomes a blank, a decimal digit of any
    script its ASCII digit and anything else [?]. *)
Definition int_ascii (U : ucd) (c : char) : char :=
  if in_range 0 126 c then c
  else if is_space c then 32
  else match digit_value U c with
       | Some v => 48 + v
       | None => 63
       end.

(** The blanks that [int] skips on both ends of the ASCII string: those of
    C's [isspace]. The separators U+001C to U+001F are none of them. *)
Definition c_space (c : char) : bool := in_range 9 13 c || (c =? 32).

Fixpoint c_lstrip (s : str) : str :=
  match s with
  | c :: s' => if c_space c then c_lstrip s' else s
  | [] => []
  end.

Definition c_strip (s : str) : str := rev (c_lstrip (rev (c_lstrip s))).

(** Digits of an [int] literal: ASCII digits, single underscores between
    them. [pending] holds where a digit must follow. *)
Fixpoint int_digits (acc : Z) (pending : bool) (s : str) : option Z :=
  match s with
  | [] => if pending then None else Some acc
  | c :: s' =>
    if c =? 95 then (if pending then None else int_digits acc true s')
    else if ascii_digit c then int_digits (10 * acc + (c - 48)) false s'
    else None
  end.

(** [sys.int_info.default_max_str_digits]: a literal of more digits is
    refused with [ValueError] (Python 3.11 and later). *)
Definition max_str_digits : Z := 4300.

Definition digit_count (s : str) : Z :=
  Z.of_nat (length (filter ascii_digit s)).

(** [int(s)] for a [str] *)
Definition py_int (U : ucd) (s : str) : pyresult Z :=
  let body (t : str) :=
    match int_digits 0 true t with
    | Some n =>
      if digit_count t <=? max_str_digits then Ret n else Raise ValueError
    | None => Raise ValueError
    end in
  match c_strip (map (int_ascii U) s) with
  | c :: t =>
    if c =? 43 then body t
    else if c =? 45 then n <- body t ;; Ret (- n)
    else body (c :: t)
  | [] => body []
  end.

(** [sep.join(parts)] *)
Fixpoint join (sep : str) (parts : list str) : str :=
  match parts with
  | [] => []
  | [p] => p
  | p :: rest => p ++ sep ++ join sep rest
  end.

(** The dictionary that [parse_signal] returns. *)
Record Signal := {
  base : str;
  symbol : str;
  side : str;
  trigger : float;
  tp_prices : list float;
  dca_prices : list float;
  sl_price : option float;
  raw : str
}.

Definition found (m : rmatch_result) : bool :=
  match m with Some _ => true | None => false end.

Fixpoint set_nth (l : list float) (i : nat) (v : float) : list float :=
  match l, i with
  | [], _ => []
  | _ :: l', O => v :: l'
  | x :: l', S j => x :: set_nth l' j v
  end.

(** [l[i] = v]: a negative index counts from the end, an index outside the
    list raises [IndexError]. *)
Definition list_assign (l : list float) (i : Z) (v : float)
  : pyresult (list float) :=
  let n := Z.of_nat (length l) in
  let j := if i <? 0 then i + n else i in
  if (0 <=? j) && (j <? n) then Ret (set_nth l (Z.to_nat j) v)
  else Raise IndexError.

(** [while len(tps) < idx: tps.append(0.0)] *)
Definition grow (tps : list float) (idx : Z) : list float :=
  tps ++ repeat fzero (Z.to_nat (idx - Z.of_nat (length tps))).

(** The body of the loop over [RE_TP.finditer(text)] *)
Definition tp_step (U : ucd) (tps : list float) (m : groups)
  : pyresult (list float) :=
  idx <- py_int U (group m 1) ;;
  price <- py_float (remove_commas (group m 2)) ;;
  list_assign (grow tps idx) (idx - 1) price.

Fixpoint tp_loop (U : ucd) (ms : list groups) (tps : list float)
  : pyresult (list float) :=
  match ms with
  | [] => Ret tps
  | m :: ms' => tps' <- tp_step U tps m ;; tp_loop U ms' tps'
  end.

(** The take-profit extraction: the loop, started from the empty list. *)
Definition tp_extract (U : ucd) (text : str) : pyresult (list float) :=
  tp_loop U (finditer (RE_TP U) text) [].

(** [p > 0] *)
Definition above_zero (p : float) : bool := fgt p fzero.

Definition dca_extract (text : str) : pyresult (list float) :=
  match search RE_DCA text with
  | Some (m_dca, _) =>
    dca_price <- py_float (remove_commas (group m_dca 1)) ;;
    Ret (if above_zero dca_price then [dca_price] else [])
  | None => Ret []
  end.

Definition sl_extract (text : str) : pyresult (option float) :=
  match search RE_SL text with
  | Some (m_sl, _) =>
    p <- py_float (remove_commas (group m_sl 1)) ;;
    Ret (Some p)
  | None => Ret None
  end.

(** [parse_signal(text, quote)]: [Ret None] is Python's [None]. *)
Definition parse_signal (U : ucd) (text quote : str)
  : pyresult (option Signal) :=
  if negb (found (search RE_NEW_SIGNAL text)) then Ret None
  else if found (search RE_CANCELLED text) then Ret None
  else if found (search RE_HOURGLASS_CLOSED text) then Ret None
  else
    match search RE_SIDE_SYMBOL text with
    | None => Ret None
    | Some (m_side, _) =>
      let side_word := upper U (group m_side 1) in
      let base := upper U (group m_side 2) in
      let quote_found := upper U (group m_side 3) in
      if negb (str_eqb quote_found (upper U quote)) then Ret None
      else
        let side :=
          if str_eqb side_word (py "SHORT") then py "sell" else py "buy" in
        let symbol := base ++ quote in
        match search RE_ENTRY text with
        | None => Ret None
        | Some (m_entry, _) =>
          trigger <- py_float (remove_commas (group m_entry 1)) ;;
          tps <- tp_extract U text ;;
          let tps := filter above_zero tps in
          match tps with
          | [] => Ret None
          | _ :: _ =>
            dcas <- dca_extract text ;;
            sl_price <- sl_extract text ;;
            Ret (Some {| base := base; symbol := symbol; side := side;
                         trigger := trigger; tp_prices := tps;
                         dca_prices := dcas; sl_price := sl_price;
                         raw := firstn 500 text |})
          end
        end
    end.

(** [str(l)] for a list of floats *)
Definition list_repr (l : list float) : str :=
  [91] ++ join (py ", ") (map float_repr l) ++ [93].

(** The string that [signal_hash] digests *)
Definition hash_core (sig : Signal) : str :=
  symbol sig ++ [124] ++ side sig ++ [124] ++ float_repr (trigger sig)
    ++ [124] ++ list_repr (tp_prices sig) ++ [124]
    ++ list_repr (dca_prices sig).

(** [signal_hash(sig)] *)
Definition signal_hash (sig : Signal) : pyresult str :=
  bytes <- utf8_encode (hash_core sig) ;;
  Ret (MD5.hexdigest bytes).

(* ================================================================== *)
(** * Part VI. [discord_reader.py] *)
(* ================================================================== *)

(** The message objects of the channel endpoint. For a key that the code
    reads as a text, the missing key and the key that holds [null] are both
    [None] here: the code tests the value with [if x:] and skips both. For
    a key that it reads as a container ([embeds], [fields], [footer]) the
    default of [.get] stands in for the missing key only, so the three
    cases are kept apart. *)
Inductive entry (A : Type) :=
| Missing                (* no such key *)
| Null                   (* the key holds [null] *)
| Present (a : A).
Arguments Missing {A}.
Arguments Null {A}.
Arguments Present {A} a.

Record Field := { name : option str; value : option str }.
Record Footer := { text : option str }.
Record Embed := {
  title : option str;
  description : option str;
  fields : entry (list Field);
  footer : entry Footer
}.
Record RawMessage := {
  msg_id : option str;
  content : option str;
  embeds : entry (list Embed);
  timestamp : option str
}.

(** ** [fetch_after] *)

(** What [requests] raises: [HTTPError], [ConnectionError], [Timeout] and
    [JSONDecodeError] (of [r.json()] on a body that is no JSON) are the
    subclasses of [requests.RequestException] met here. *)
Inductive request_exception :=
| HTTPError
| ConnectionError
| Timeout
| JSONDecodeError.

(** A JSON value, as far as [float] tells values apart. A string is given
    by what [float] makes of it: [Some x], or [None] where [float] raises
    [ValueError]. *)
Inductive jvalue :=
| JNull
| JBool (b : bool)
| JInt (i : Z)
| JFloat (x : float)
| JString (parsed : option float)
| JCompound.             (* an array or an object *)

(** A decoded body: an array of message objects, or an object, given by
    its entry under ["retry_after"] (if any) and by whether it holds other
    keys. *)
Inductive payload :=
| Batch (msgs : list RawMessage)
| Dict (retry_after : option jvalue) (more : bool).

(** What [r.json()] does: it returns the decoded body, raises
    [JSONDecodeError] on a body that is no JSON, or lets another exception
    of the decoder through ([ValueError] for an integer literal beyond the
    digit limit of [int]). *)
Inductive decoding :=
| Decoded (p : payload)
| NotJson
| DecodeRaises (e : exn).

(** A response, as far as [fetch_after] looks at it. *)
Record response := {
  status_code : Z;
  json : decoding
}.

(** What one call of [requests.get] yields. *)
Definition reply := (request_exception + response)%type.

(** The remote service: its reply to the first, second, ... request. *)
Definition remote := nat -> reply.

Inductive event :=
| Get                 (* one [requests.get] *)
| Sleep (d : float).  (* one [time.sleep(d)] that slept *)

Record world := { requests_made : nat; log : list event }.

Definition do_get (srv : remote) (w : world) : reply * world :=
  (srv (requests_made w),
   {| requests_made := S (requests_made w); log := log w ++ [Get] |}).

Definition do_sleep (d : float) (w : world) : world :=
  {| requests_made := requests_made w; log := log w ++ [Sleep d] |}.

Definition float_of_nat (n : nat) : float := float_of_ratio (Z.of_nat n) 1.

Definition fmul (x y : float) : float := SFmul prec emax x y.

(** [time.sleep(d)] for a float [d]: the exception it raises instead of
    sleeping, if any. The wait is taken to nanoseconds ([d * 1e9], rounded
    away from zero); [nan] and a negative count are refused with
    [ValueError], a count outside the 64-bit range with [OverflowError]. A
    count of exactly [2 ^ 63] passes the range test and wraps to a negative
    one. The system call is taken to sleep: a host refuses it only when its
    clock plus the wait leaves the 63-bit range, which takes a wait of
    centuries. *)
Definition time_sleep_raises (d : float) : option exn :=
  match d with
  | S754_nan => Some ValueError
  | _ =>
    let ns := fmul d (float_of_ratio (10 ^ 9) 1) in
    let two63 := float_of_ratio (2 ^ 63) 1 in
    if SFltb ns (SFopp two63) || SFltb two63 ns then Some OverflowError
    else if SFltb ns fzero || SFeqb ns two63 then Some ValueError
    else None
  end.

(** [r.raise_for_status()]: [HTTPError] for a 4xx or 5xx status. *)
Definition raise_for_status (r : response) : request_exception + unit :=
  if (400 <=? status_code r) && (status_code r <? 600) then inl HTTPError
  else inr tt.

(** [body.get("retry_after", 5)]: an array has no [get]. *)
Definition get_retry_after (p : payload) : pyresult jvalue :=
  match p with
  | Batch _ => Raise AttributeError
  | Dict (Some v) _ => Ret v
  | Dict None _ => Ret (JInt 5)
  end.

(** [float(v)] for a decoded JSON value *)
Definition float_of_json (v : jvalue) : pyresult float :=
  match v with
  | JNull | JCompound => Raise TypeError
  | JBool b => Ret (float_of_nat (if b then 1 else 0))
  | JInt i => float_of_int i
  | JFloat x => Ret x
  | JString (Some x) => Ret x
  | JString None => Raise ValueError
  end.

(** [float(body.get("retry_after", 5)) + 1] *)
Definition rate_limit_wait (p : payload) : pyresult float :=
  v <- get_retry_after p ;;
  x <- float_of_json v ;;
  Ret (fadd x (float_of_nat 1)).

(** How one turn of the loop ends. *)
Inductive turn :=
| Continue                           (* [continue] *)
| Return (p : payload)               (* [return r.json()] *)
| Caught (e : request_exception)     (* [except requests.RequestException] *)
| Uncaught (e : exn).                (* an exception that the clause lets by *)

(** [r.json()] inside the [try] block, then [k] on the decoded body *)
Definition with_json (r : response) (w : world)
    (k : payload -> turn * world) : turn * world :=
  match json r with
  | Decoded p => k p
  | NotJson => (Caught JSONDecodeError, w)
  | DecodeRaises e => (Uncaught e, w)
  end.

(** The [try] block of one attempt. *)
Definition try_block (srv : remote) (w : world) : turn * world :=
  let '(got, w1) := do_get srv w in
  match got with
  | inl e => (Caught e, w1)
  | inr r =>
    if status_code r =? 429 then
      with_json r w1 (fun p =>
        match rate_limit_wait p with
        | Raise e => (Uncaught e, w1)
        | Ret wait =>
          match time_sleep_raises wait with
          | Some e => (Uncaught e, w1)
          | None => (Continue, do_sleep wait w1)
          end
        end)
    else
      match raise_for_status r with
      | inl e => (Caught e, w1)
      | inr _ => with_json r w1 (fun p => (Return p, w1))
      end
  end.

(** [for attempt in attempts: ...] and the [return []] after the loop. An
    exception that is no [requests.RequestException] ends the call. *)
Fixpoint fetch_loop (srv : remote) (attempts : list Z) (w : world)
  : pyresult payload * world :=
  match attempts with
  | [] => (Ret (Batch []), w)
  | attempt :: rest =>
    match try_block srv w with
    | (Return p, w1) => (Ret p, w1)
    | (Continue, w1) => fetch_loop srv rest w1
    | (Caught _, w1) =>
      let w2 := if attempt <? 2 then do_sleep (float_of_nat 3) w1 else w1 in
      fetch_loop srv rest w2
    | (Uncaught e, w1) => (Raise e, w1)
    end
  end.

Definition new_world : world := {| requests_made := 0; log := [] |}.

(** [fetch_after(after_id, limit)]. The URL only selects what the remote
    answers, which [srv] stands for. *)
Definition fetch_after (srv : remote) : pyresult payload * world :=
  fetch_loop srv [0; 1; 2] new_world.

(** ** [extract_text] *)

(** [if x: parts.append(x)] *)
Definition append_if (parts : list str) (x : option str) : list str :=
  match x with
  | Some (c :: s) => parts ++ [c :: s]
  | _ => parts
  end.

Definition field_parts (parts : list str) (f : Field) : list str :=
  let parts := append_if parts (name f) in
  append_if parts (value f).

(** [for x in obj.get(key, [])]: what the loop runs over. [None] is not
    iterable. *)
Definition iterable {A : Type} (e : entry (list A)) : pyresult (list A) :=
  match e with
  | Missing => Ret []
  | Null => Raise TypeError
  | Present l => Ret l
  end.

(** [embed.get("footer", {}).get("text", "")]: [None] has no [get]. *)
Definition footer_text (e : Embed) : pyresult (option str) :=
  match footer e with
  | Missing => Ret None
  | Null => Raise AttributeError
  | Present f => Ret (text f)
  end.

(** The body of the loop over the embeds *)
Definition embed_parts (parts : list str) (e : Embed)
  : pyresult (list str) :=
  let parts := append_if parts (title e) in
  let parts := append_if parts (description e) in
  fs <- iterable (fields e) ;;
  let parts := fold_left field_parts fs parts in
  ft <- footer_text e ;;
  Ret (append_if parts ft).

Fixpoint embeds_loop (es : list Embed) (parts : list str)
  : pyresult (list str) :=
  match es with
  | [] => Ret parts
  | e :: es' => parts' <- embed_parts parts e ;; embeds_loop es' parts'
  end.

(** [parts] when the loops are done *)
Definition collect_parts (msg : RawMessage) : pyresult (list str) :=
  let parts := append_if [] (content msg) in
  es <- iterable (embeds msg) ;;
  embeds_loop es parts.

Definition nonempty (s : str) : bool :=
  match s with [] => false | _ => true end.

(** [" | ".join(filter(None, parts))] *)
Definition joined_text (msg : RawMessage) : pyresult str :=
  parts <- collect_parts msg ;;
  Ret (join (py " | ") (filter nonempty parts)).

(** The clean-up after the join: entity decoding, the three [re.sub], and
    [strip]. [html.unescape] is the library's; it is a parameter. *)
Definition clean_up (U : ucd) (unescape : str -> str) (t : str) : str :=
  let t := unescape t in
  let t := sub_delete (RE_MENTION U) t in
  let t := sub_delete (RE_CHANNEL U) t in
  let t := sub_delete (RE_EMOJI U) t in
  strip t.

Definition extract_text (U : ucd) (unescape : str -> str) (msg : RawMessage)
  : pyresult str :=
  t <- joined_text msg ;;
  Ret (clean_up U unescape t).

(** ** [message_timestamp_unix] *)

Definition discord_epoch : Z := 1420070400000.

(** [1000.0] *)
Definition thousand : float := float_of_ratio 1000 1.

(** [ts_str.replace("Z", "+00:00")] *)
Definition replace_Z (s : str) : str :=
  flat_map (fun c => if c =? 90 then py "+00:00" else [c]) s.

(** The [try] block on the identifier; [Ret None] when it falls through. *)
Definition snowflake_time (U : ucd) (msg : RawMessage)
  : pyresult (option float) :=
  n <- match msg_id msg with
       | Some s => py_int U s
       | None => Ret 0
       end ;;
  if n =? 0 then Ret None
  else
    let timestamp_ms := Z.shiftr n 22 + discord_epoch in
    x <- int_truediv_float timestamp_ms thousand ;;
    Ret (Some x).

(** The fall-back on the [timestamp] field. [iso t] is
    [datetime.fromisoformat(t).timestamp()], [None] when that raises. *)
Definition timestamp_fallback (iso : str -> option float) (msg : RawMessage)
  : option float :=
  match timestamp msg with
  | Some (c :: s) => iso (replace_Z (c :: s))
  | _ => None
  end.

(** [except (ValueError, TypeError): pass] *)
Definition caught_by_pass (e : exn) : bool :=
  match e with
  | ValueError | TypeError => true
  | _ => false
  end.

Definition message_timestamp_unix (U : ucd) (iso : str -> option float)
    (msg : RawMessage) : pyresult (option float) :=
  match snowflake_time U msg with
  | Ret (Some x) => Ret (Some x)
  | Ret None => Ret (timestamp_fallback iso msg)
  | Raise e =>
    if caught_by_pass e then Ret (timestamp_fallback iso msg) else Raise e
  end.

(* ================================================================== *)
(** * Scenarios and reference definitions used by the properties *)
(* ================================================================== *)

(** [TEST_SIGNAL_WITH_DCA] of [test_signal.py]: the Scenario A text. *)
Definition TEST_SIGNAL_WITH_DCA : str := py "
📊 NEW SIGNAL • OL • Entry $0.01740

AO Trading • New Trade Signal
🔴 SHORT SIGNAL - OL/USDT
Leverage: 25x • Trader: haseeb1111

📊 Entry: 0.01740 ⏳ Pending

🎯 Profit Targets:
🎯 TP1: 0.01719 → NEXT
⏳ TP2: 0.01698 Pending
⏳ TP3: 0.01670 Pending
⏳ TP4: 0.01601 Pending

📊 DCA Levels:
⏳ DCA1: 0.01800 Pending

🛡️ Stop Loss: 0.01846

📊 TRADE NOW:
ByBit • MEXC • Blofin • Bitget

AO Trading • Trade Together. Win Together. 🚀
".

(** The double that the decimal literal [s] denotes. *)
Definition dec (s : string) : float :=
  match py_float (py s) with
  | Ret x => x
  | Raise _ => S754_nan
  end.

(** The fragments that Scenario A names. *)
Definition scenario_A_fragments : list str :=
  map py ["SHORT SIGNAL - OL/USDT"; "Entry: 0.01740"; "TP1: 0.01719";
          "TP2: 0.01698"; "TP3: 0.01670"; "TP4: 0.01601"; "DCA1: 0.01800";
          "Stop Loss: 0.01846"]%string.

(** The Signal that Scenario A expects, for a given [raw]. *)
Definition scenario_A_signal (raw : str) : Signal :=
  {| base := py "OL"; symbol := py "OLUSDT"; side := py "sell";
     trigger := dec "0.01740";
     tp_prices := [dec "0.01719"; dec "0.01698"; dec "0.01670"; dec "0.01601"];
     dca_prices := [dec "0.01800"];
     sl_price := Some (dec "0.01846");
     raw := raw |}.

(** Two Signals agree on what Scenario A lists when they differ at most in
    [raw]. *)
Definition same_but_raw (a b : Signal) : Prop :=
  base a = base b /\ symbol a = symbol b /\ side a = side b
  /\ trigger a = trigger b /\ tp_prices a = tp_prices b
  /\ dca_prices a = dca_prices b /\ sl_price a = sl_price b.

(** [frag in text] *)
Fixpoint starts_with (frag s : str) : bool :=
  match frag, s with
  | [], _ => true
  | _ :: _, [] => false
  | a :: frag', b :: s' => (a =? b) && starts_with frag' s'
  end.

Fixpoint contains (frag s : str) : bool :=
  starts_with frag s ||
  match s with
  | [] => false
  | _ :: s' => contains frag s'
  end.

(** A text that quotes an earlier signal before the Scenario A fragments. *)
Definition two_signals_text : str := py
  "LONG SIGNAL - BTC/USDT | Entry: 42500.00 | TP1: 42800.00 | SHORT SIGNAL - OL/USDT | Entry: 0.01740 | TP1: 0.01719 | TP2: 0.01698 | TP3: 0.01670 | TP4: 0.01601 | DCA1: 0.01800 | Stop Loss: 0.01846".

(** A signal whose only take-profit label has rank 0. *)
Definition tp0_text : str := py
  "SHORT SIGNAL - OL/USDT | Entry: 0.01740 | TP0: 0.01719".

(** A signal whose only take-profit label has rank 0 and the price 0. *)
Definition tp0_zero_text : str := py
  "SHORT SIGNAL - OL/USDT | Entry: 0.01740 | TP0: 0".

(** A signal whose only take-profit label has a rank of 4301 digits. *)
Definition long_rank_text : str :=
  py "SHORT SIGNAL - OL/USDT | Entry: 0.01740 | TP" ++ repeat 49 4301
    ++ py ": 0.01719".

(** A signal whose only averaging label has rank 2. *)
Definition dca2_text : str := py
  "SHORT SIGNAL - OL/USDT | Entry: 0.01740 | TP1: 0.01719 | DCA2: 0.5 | Stop Loss: 0.01846".

(** A float is strictly positive: a positive finite number or [+inf]. *)
Definition strictly_positive (p : float) : Prop :=
  match p with
  | S754_finite false _ _ | S754_infinity false => True
  | _ => False
  end.

(** The members of a container; a container that is not there has none. *)
Definition items {A : Type} (e : entry (list A)) : list A :=
  match e with
  | Present l => l
  | Missing | Null => []
  end.

(** The fragments of a message in the order of the specification, empty and
    absent ones included: the content; then, for each embed in order, its
    title, its description, the name then the value of each field in
    order, and the text of its footer. *)
Definition embed_fragments (e : Embed) : list (option str) :=
  [title e; description e]
    ++ flat_map (fun f => [name f; value f]) (items (fields e))
    ++ [match footer e with
        | Present f => text f
        | Missing | Null => None
        end].

Definition fragments (msg : RawMessage) : list (option str) :=
  content msg :: flat_map embed_fragments (items (embeds msg)).

(** The fragments that are present and not empty, in order. *)
Definition kept (l : list (option str)) : list str :=
  flat_map (fun x => match x with Some (c :: s) => [c :: s] | _ => [] end) l.

(** Fragments separated by space, bar, space: the first fragment, then
    each further one behind the delimiter. *)
Definition delimited (frags : list str) : str :=
  match frags with
  | [] => []
  | f :: rest => f ++ flat_map (fun g => [32; 124; 32] ++ g) rest
  end.

Definition is_null {A : Type} (e : entry A) : bool :=
  match e with Null => true | Missing | Present _ => false end.

(** No container of the message holds [null]: not its [embeds], and of no
    embed the [fields] or the [footer]. *)
Definition no_null_container (msg : RawMessage) : bool :=
  negb (is_null (embeds msg))
  && forallb (fun e => negb (is_null (fields e)) && negb (is_null (footer e)))
       (items (embeds msg)).

(** An embed whose footer holds [null], in a message with a content. *)
Definition null_footer_message : RawMessage :=
  {| msg_id := None; content := Some (py "NEW SIGNAL");
     embeds := Present [ {| title := Some (py "AO Trading");
                            description := None; fields := Missing;
                            footer := Null |} ];
     timestamp := None |}.

(** A message with every kind of fragment, some of them empty or absent. *)
Definition full_message : RawMessage :=
  {| msg_id := None; content := Some (py "C");
     embeds := Present
       [ {| title := Some (py "T1"); description := Some [];
            fields := Present [ {| name := Some (py "N1"); value := None |};
                                {| name := Some []; value := Some (py "V2") |} ];
            footer := Present {| text := Some (py "F1") |} |};
         {| title := None; description := Some (py "D2");
            fields := Missing; footer := Missing |};
         {| title := Some (py "T3"); description := None;
            fields := Present []; footer := Present {| text := None |} |} ];
     timestamp := None |}.


(** A 4xx or 5xx response other than 429. *)
Definition http_failure (rp : reply) : bool :=
  match rp with
  | inr r =>
    negb (status_code r =? 429)
    && (400 <=? status_code r) && (status_code r <? 600)
  | inl _ => false
  end.

(** The same remote, with a transport failure in place of every such
    response. *)
Definition as_transport_failure (srv : remote) : remote :=
  fun i => if http_failure (srv i) then inl ConnectionError else srv i.

Definition not_found : reply :=
  inr {| status_code := 404; json := Decoded (Dict None true) |}.

(** A reply at which the [try] block lets no exception by: a transport
    failure, a 4xx or 5xx response other than 429, or another response
    other than 429 whose body the decoder returns or refuses as no JSON. *)
Definition quiet (rp : reply) : bool :=
  match rp with
  | inl _ => true
  | inr r =>
    negb (status_code r =? 429)
    && (http_failure rp
        || match json r with
           | DecodeRaises _ => false
           | Decoded _ | NotJson => true
           end)
  end.

(** A message that carries only an identifier. *)
Definition message_with_id (s : str) : RawMessage :=
  {| msg_id := Some s; content := None; embeds := Missing;
     timestamp := None |}.

(** What the matcher finds, as a relation: [matches r w g g'] says that
    [r] matches exactly the word [w], taking the captures from [g] to
    [g']. (The relation does not say which match is preferred.) *)
Fixpoint matches (r : regex) (w : str) (g g' : groups) : Prop :=
  match r with
  | Eps => w = [] /\ g' = g
  | Chr p => exists c, w = [c] /\ p c = true /\ g' = g
  | Cat r1 r2 =>
    exists w1 w2 g1,
      w = w1 ++ w2 /\ matches r1 w1 g g1 /\ matches r2 w2 g1 g'
  | Alt r1 r2 => matches r1 w g g' \/ matches r2 w g g'
  | Star p => forallb p w = true /\ g' = g
  | Grp i r1 => exists g1, matches r1 w g g1 /\ g' = (i, w) :: g1
  end.

Fixpoint no_groups (r : regex) : bool :=
  match r with
  | Eps | Chr _ | Star _ => true
  | Cat r1 r2 | Alt r1 r2 => no_groups r1 && no_groups r2
  | Grp _ _ => false
  end.

(** A string that [NUM] can capture: digits, optionally a dot and digits. *)
Definition is_decimal (w : str) : Prop :=
  exists ip, all_digits ip = true /\
    (w = ip \/ exists fp, all_digits fp = true /\ w = ip ++ 46 :: fp).

(** What is assumed of the Unicode tables where it matters: a decimal
    digit is no white space, and its value is a digit value. *)
Definition ucd_wf (U : ucd) : Prop :=
  forall c v, ucd_digit U c = Some v -> is_space c = false /\ 0 <= v <= 9.

(** ** [get_latest_message_id] *)

(** [msgs[0].get("id")] when [msgs] is true, [None] otherwise. An object
    is true when it holds a key, and has no entry under [0]. *)
Definition latest_id (msgs : payload) : pyresult (option str) :=
  match msgs with
  | Batch (m :: _) => Ret (msg_id m)
  | Batch [] => Ret None
  | Dict None false => Ret None
  | Dict _ _ => Raise KeyError
  end.

(** [msgs = self.fetch_after(limit=1)], then the identifier of its first
    message. *)
Definition get_latest_message_id (srv : remote)
  : pyresult (option str) * world :=
  let '(res, w) := fetch_after srv in
  (msgs <- res ;; latest_id msgs, w).

(** ** Reference definitions for the further properties *)

(** [w] is the phrase [p] up to the case folding of [re.IGNORECASE]. *)
Definition folds_to (p : string) (w : str) : Prop :=
  map re_lower w = map re_lower (py p).

(** [w] is [a], white space, [b], up to case. *)
Definition spaced (a b : string) (w : str) : Prop :=
  exists x sp y,
    w = x ++ sp ++ y /\ folds_to a x /\ sp <> []
    /\ forallb is_space sp = true /\ folds_to b y.

(** The phrasings of a new signal. *)
Definition accepted_phrase (w : str) : Prop :=
  folds_to "NEW SIGNAL" w \/ folds_to "NEW TRADE SIGNAL" w
  \/ spaced "LONG" "SIGNAL" w \/ spaced "SHORT" "SIGNAL" w
  \/ spaced "Trade" "Signal" w.

(** The phrasings of a cancelled or closed trade: the two phrases, and the
    hourglass followed by [closed]. *)
Definition closing_phrase (w : str) : Prop :=
  folds_to "TRADE CANCELLED" w \/ folds_to "TRADE CLOSED" w
  \/ exists sp c,
       w = 0x23F3 :: sp ++ c /\ forallb is_space sp = true
       /\ folds_to "closed" c.

(** The rank and the price of one TP token. *)
Definition tp_token (U : ucd) (m : groups) : pyresult (Z * float) :=
  idx <- py_int U (group m 1) ;;
  price <- py_float (remove_commas (group m 2)) ;;
  Ret (idx, price).



(** [sig] with another symbol. *)
Definition with_symbol (sig : Signal) (s : str) : Signal :=
  {| base := base sig; symbol := s; side := side sig;
     trigger := trigger sig; tp_prices := tp_prices sig;
     dca_prices := dca_prices sig; sl_price := sl_price sig;
     raw := raw sig |}.

(** The body of a response that [fetch_after] returns at once: any status
    but 429, 4xx and 5xx, with a body that decodes. *)
Definition ok_batch (rp : reply) : option payload :=
  match rp with
  | inr r =>
    if status_code r =? 429 then None
    else if (400 <=? status_code r) && (status_code r <? 600) then None
    else match json r with
         | Decoded p => Some p
         | NotJson | DecodeRaises _ => None
         end
  | inl _ => None
  end.

(** The body of the first such reply, the empty batch when none is. *)
Fixpoint first_ok (rps : list reply) : payload :=
  match rps with
  | [] => Batch []
  | rp :: rest =>
    match ok_batch rp with
    | Some p => p
    | None => first_ok rest
    end
  end.

(** Every reply before the first good one, or every reply when none is
    good, is quiet. *)
Fixpoint quiet_until_ok (rps : list reply) : bool :=
  match rps with
  | [] => true
  | rp :: rest =>
    match ok_batch rp with
    | Some _ => true
    | None => quiet rp && quiet_until_ok rest
    end
  end.

(** A 429 response after which the call sleeps [d] seconds: the body is
    an object, [float] converts its [retry_after] entry (5 when it has
    none), [d] is the sum with 1, and [time.sleep] takes [d], which is
    neither [nan] nor negative and stays below [2 ^ 62] nanoseconds. *)
Definition rate_limited (rp : reply) (d : float) : Prop :=
  exists r p,
    rp = inr r /\ status_code r = 429 /\ json r = Decoded p
    /\ rate_limit_wait p = Ret d /\ time_sleep_raises d = None
    /\ SFltb (fmul d (float_of_ratio (10 ^ 9) 1))
             (float_of_ratio (2 ^ 62) 1) = true.

(** A 429 response whose body is the object [{"retry_after": v}]. *)
Definition too_many_requests (v : jvalue) : reply :=
  inr {| status_code := 429; json := Decoded (Dict (Some v) false) |}.

Definition is_sleep (ev : event) : bool :=
  match ev with Sleep _ => true | Get => false end.

(** The requests and the sleeps of a log. *)
Definition gets (w : world) : nat :=
  length (filter (fun ev => negb (is_sleep ev)) (log w)).
Definition sleeps (w : world) : nat := length (filter is_sleep (log w)).

(** A surrogate code point, which UTF-8 cannot encode. *)
Definition surrogate (c : char) : bool := in_range 0xD800 0xDFFF c.

(** A lower-case hexadecimal digit. *)
Definition hex_char (c : char) : bool := in_range 48 57 c || in_range 97 102 c.

(* ================================================================== *)
(** * Part VII. Properties *)
(* ================================================================== *)

(** ** Strings *)

Lemma str_eqb_eq (a b : str) : str_eqb a b = true <-> a = b.
Proof.
  unfold str_eqb. destruct (list_eq_dec Z.eq_dec a b); split; congruence.
Qed.

Lemma str_eqb_neq (a b : str) : str_eqb a b = false <-> a <> b.
Proof.
  unfold str_eqb. destruct (list_eq_dec Z.eq_dec a b); split; congruence.
Qed.

(** ** The matcher finds only matches *)

Lemma firstn_consumed (w s1 : str) :
  firstn (length (w ++ s1) - length s1) (w ++ s1) = w.
Proof.
  rewrite length_app, Nat.add_sub.
  rewrite firstn_app, Nat.sub_diag, firstn_all. simpl.
  apply app_nil_r.
Qed.

Lemma star_loop_sound (p : char -> bool) (k : str -> rmatch_result) :
  forall s res, star_loop p k s = Some res ->
    exists w s', s = w ++ s' /\ forallb p w = true /\ k s' = Some res.
Proof.
  induction s as [|c s IH]; simpl; intros res H.
  - exists [], []. auto.
  - destruct (p c) eqn:Hc.
    + destruct (star_loop p k s) as [m|] eqn:Hs.
      * inversion H; subst m.
        destruct (IH _ eq_refl) as (w & s' & -> & Hw & Hk).
        exists (c :: w), s'. simpl. rewrite Hc, Hw. auto.
      * exists [], (c :: s). auto.
    + exists [], (c :: s). auto.
Qed.

Lemma rmatch_sound (r : regex) :
  forall s g k res, rmatch r s g k = Some res ->
    exists w s' g', s = w ++ s' /\ matches r w g g' /\ k s' g' = Some res.
Proof.
  induction r as [|p|r1 IH1 r2 IH2|r1 IH1 r2 IH2|p|i r IH];
    simpl; intros s g k res H.
  - exists [], s, g. auto.
  - destruct s as [|c s]; [discriminate|].
    destruct (p c) eqn:Hc; [|discriminate].
    exists [c], s, g. repeat split; eauto.
  - apply IH1 in H. destruct H as (w1 & s1 & g1 & -> & M1 & H).
    apply IH2 in H. destruct H as (w2 & s2 & g2 & -> & M2 & H).
    exists (w1 ++ w2), s2, g2. rewrite app_assoc. repeat split; eauto.
    exists w1, w2, g1. auto.
  - destruct (rmatch r1 s g k) as [m|] eqn:E.
    + inversion H; subst m. apply IH1 in E.
      destruct E as (w & s' & g' & -> & M & Hk). exists w, s', g'. auto.
    + apply IH2 in H.
      destruct H as (w & s' & g' & -> & M & Hk). exists w, s', g'. auto.
  - apply star_loop_sound in H. destruct H as (w & s' & -> & Hw & Hk).
    exists w, s', g. auto.
  - apply IH in H. destruct H as (w & s1 & g1 & -> & M & H).
    rewrite firstn_consumed in H.
    exists w, s1, ((i, w) :: g1). repeat split; eauto.
Qed.

Lemma match_at_sound (r : regex) (s : str) (g : groups) (rest : str) :
  match_at r s = Some (g, rest) ->
  exists w, s = w ++ rest /\ matches r w [] g.
Proof.
  unfold match_at. intros H. apply rmatch_sound in H.
  destruct H as (w & s' & g' & -> & M & H). inversion H; subst.
  exists w. auto.
Qed.

Lemma search_sound (r : regex) :
  forall s g rest, search r s = Some (g, rest) ->
    exists pre w, s = pre ++ w ++ rest /\ matches r w [] g.
Proof.
  induction s as [|c s IH]; simpl; intros g rest H.
  - destruct (match_at r []) as [m|] eqn:E; [|discriminate].
    inversion H; subst m. apply match_at_sound in E.
    destruct E as (w & E & M). exists [], w. auto.
  - destruct (match_at r (c :: s)) as [m|] eqn:E.
    + inversion H; subst m. apply match_at_sound in E.
      destruct E as (w & E & M). exists [], w. auto.
    + apply IH in H. destruct H as (pre & w & -> & M).
      exists (c :: pre), w. auto.
Qed.

Lemma finditer_from_sound (r : regex) :
  forall s skip g, In g (finditer_from r skip s) ->
    exists w, matches r w [] g.
Proof.
  induction s as [|c s IH]; simpl; intros skip g H; [contradiction|].
  destruct skip as [|n]; [|eauto].
  destruct (match_at r (c :: s)) as [[g0 rest]|] eqn:E; [|eauto].
  destruct H as [<-|H]; [|eauto].
  apply match_at_sound in E. destruct E as (w & _ & M). eauto.
Qed.

Lemma finditer_sound (r : regex) (s : str) (g : groups) :
  In g (finditer r s) -> exists w, matches r w [] g.
Proof. apply finditer_from_sound. Qed.

Lemma no_groups_matches (r : regex) :
  no_groups r = true -> forall w g g', matches r w g g' -> g' = g.
Proof.
  induction r as [|p|r1 IH1 r2 IH2|r1 IH1 r2 IH2|p|i r IH];
    simpl; intros N w g g' M.
  - tauto.
  - destruct M as (c & _ & _ & ->). reflexivity.
  - apply andb_true_iff in N. destruct N as [N1 N2].
    destruct M as (w1 & w2 & g1 & _ & M1 & M2).
    apply IH1 in M1; auto. apply IH2 in M2; auto. congruence.
  - apply andb_true_iff in N. destruct N as [N1 N2].
    destruct M as [M|M]; eauto.
  - tauto.
  - discriminate.
Qed.

(** ** What [NUM] captures, and [float] on it *)

Lemma plus_matches (p : char -> bool) (w : str) (g g' : groups) :
  matches (plus p) w g g' -> w <> [] /\ forallb p w = true /\ g' = g.
Proof.
  simpl. intros (w1 & w2 & g1 & -> & (c & -> & Hc & ->) & Hw & ->).
  simpl. rewrite Hc, Hw. repeat split. discriminate.
Qed.

Lemma all_digits_iff (w : str) :
  all_digits w = true <-> w <> [] /\ forallb ascii_digit w = true.
Proof.
  destruct w; simpl; split.
  - discriminate.
  - intros [H _]. congruence.
  - intros H. split; [discriminate | exact H].
  - tauto.
Qed.

Lemma num_capture (i : nat) (w : str) (g g' : groups) :
  matches (NUM i) w g g' -> is_decimal w /\ g' = (i, w) :: g.
Proof.
  unfold NUM. cbn [matches].
  intros (g1 & (w1 & w2 & g2 & -> & M1 & M2) & ->).
  apply plus_matches in M1. destruct M1 as (N1 & D1 & ->).
  assert (A1 : all_digits w1 = true) by (apply all_digits_iff; auto).
  unfold opt in M2. cbn [matches] in M2.
  destruct M2 as [(w3 & w4 & g3 & -> & (c & -> & Hc & ->) & M4) | [-> ->]].
  - apply plus_matches in M4. destruct M4 as (N4 & D4 & ->).
    unfold one in Hc. apply Z.eqb_eq in Hc. subst c.
    split; [|reflexivity].
    exists w1. split; [exact A1|]. right. exists w4.
    split; [apply all_digits_iff; auto | reflexivity].
  - rewrite app_nil_r. split; [|reflexivity].
    exists w1. split; [exact A1|]. left. reflexivity.
Qed.

Lemma digit_not_dot (c : char) : ascii_digit c = true -> (c =? 46) = false.
Proof.
  unfold ascii_digit, in_range. intros H. apply andb_true_iff in H.
  destruct H as [H1 H2]. apply Z.leb_le in H1. apply Z.eqb_neq. lia.
Qed.

Lemma digit_not_comma (c : char) : ascii_digit c = true -> (c =? 44) = false.
Proof.
  unfold ascii_digit, in_range. intros H. apply andb_true_iff in H.
  destruct H as [H1 H2]. apply Z.leb_le in H1. apply Z.eqb_neq. lia.
Qed.

Lemma split_dot_digits (ip : str) :
  forallb ascii_digit ip = true ->
  split_dot ip = (ip, None)
  /\ forall fp, split_dot (ip ++ 46 :: fp) = (ip, Some fp).
Proof.
  induction ip as [|c ip IH]; simpl; intros H.
  - auto.
  - apply andb_true_iff in H. destruct H as [Hc H].
    rewrite (digit_not_dot _ Hc). destruct (IH H) as [E1 E2].
    rewrite E1. split; [reflexivity|]. intros fp. rewrite E2. reflexivity.
Qed.

Lemma remove_commas_digits (w : str) :
  forallb ascii_digit w = true -> remove_commas w = w.
Proof.
  unfold remove_commas. induction w as [|c w IH]; simpl; intros H.
  - reflexivity.
  - apply andb_true_iff in H. destruct H as [Hc H].
    rewrite (digit_not_comma _ Hc). simpl. rewrite IH; auto.
Qed.

Lemma remove_commas_decimal (w : str) : is_decimal w -> remove_commas w = w.
Proof.
  intros (ip & A & [->|(fp & B & ->)]).
  - apply remove_commas_digits. apply all_digits_iff in A. tauto.
  - apply all_digits_iff in A. apply all_digits_iff in B.
    unfold remove_commas. rewrite filter_app. simpl.
    fold (remove_commas ip). fold (remove_commas fp).
    rewrite !remove_commas_digits; tauto.
Qed.

(** [float] never fails on what [NUM] captures, and the result is the
    rounding of a non-negative quotient. *)
Lemma py_float_decimal (w : str) :
  is_decimal w ->
  exists n d, py_float (remove_commas w) = Ret (float_of_ratio n d).
Proof.
  intros D. rewrite (remove_commas_decimal D).
  destruct D as (ip & A & [->|(fp & B & ->)]); unfold py_float.
  - assert (F : forallb ascii_digit ip = true)
      by (apply all_digits_iff in A; tauto).
    destruct (split_dot_digits ip F) as [-> _]. rewrite A. eauto.
  - assert (F : forallb ascii_digit ip = true)
      by (apply all_digits_iff in A; tauto).
    destruct (split_dot_digits ip F) as [_ E]. rewrite E, A, B. simpl. eauto.
Qed.

(** ** Positive floats *)

Lemma positive_iff (p : float) : above_zero p = true <-> strictly_positive p.
Proof.
  unfold above_zero, fgt, fzero, SFltb.
  destruct p as [s|s| |s m e]; simpl; try destruct s; simpl;
    split; intros H; try discriminate; try contradiction; auto.
Qed.

(** ** The captures of the price patterns *)

Lemma skip_prefix (r1 r2 : regex) (w : str) (g g' : groups) :
  no_groups r1 = true -> matches (Cat r1 r2) w g g' ->
  exists w2, matches r2 w2 g g'.
Proof.
  intros N (w1 & w2 & g1 & _ & M1 & M2).
  apply (no_groups_matches _ N) in M1. subst g1. eauto.
Qed.

Lemma num_last (i : nat) (w : str) (g g' : groups) :
  matches (Cat (NUM i) Eps) w g g' ->
  exists wn, is_decimal wn /\ g' = (i, wn) :: g.
Proof.
  intros (w1 & w2 & g1 & _ & M1 & (_ & ->)).
  apply num_capture in M1. destruct M1 as [D ->]. eauto.
Qed.

Ltac skip_prefixes M :=
  repeat (apply skip_prefix in M; [destruct M as [? M] | reflexivity]).

Lemma entry_capture (w : str) (g : groups) :
  matches RE_ENTRY w [] g -> is_decimal (group g 1).
Proof.
  unfold RE_ENTRY, rseq. cbn [fold_right]. intros M.
  skip_prefixes M. apply num_last in M. destruct M as (wn & D & ->). exact D.
Qed.



Lemma tp_capture (U : ucd) (w : str) (g : groups) :
  matches (RE_TP U) w [] g ->
  (group g 1 <> [] /\ forallb (unicode_digit U) (group g 1) = true)
  /\ is_decimal (group g 2).
Proof.
  unfold RE_TP, rseq. cbn [fold_right]. intros M.
  skip_prefixes M.
  destruct M as (w1 & w2 & g1 & _ & (g0 & M1 & ->) & M).
  apply plus_matches in M1. destruct M1 as (N1 & D1 & ->).
  skip_prefixes M. apply num_last in M. destruct M as (wn & D & ->).
  unfold group. simpl. auto.
Qed.

Lemma entry_float (text : str) (g : groups) (rest : str) :
  search RE_ENTRY text = Some (g, rest) ->
  exists n d, py_float (remove_commas (group g 1)) = Ret (float_of_ratio n d).
Proof.
  intros H. apply search_sound in H. destruct H as (pre & w & _ & M).
  apply py_float_decimal, (entry_capture M).
Qed.



(** ** The pipeline of [parse_signal], step by step *)

(** What a successful parse went through. *)
Lemma parse_signal_success (U : ucd) (text quote : str) (sig : Signal) :
  parse_signal U text quote = Ret (Some sig) ->
  exists m_side r1 m_entry r2 trig tps dcas sl,
    found (search RE_NEW_SIGNAL text) = true
    /\ found (search RE_CANCELLED text) = false
    /\ found (search RE_HOURGLASS_CLOSED text) = false
    /\ search RE_SIDE_SYMBOL text = Some (m_side, r1)
    /\ upper U (group m_side 3) = upper U quote
    /\ search RE_ENTRY text = Some (m_entry, r2)
    /\ py_float (remove_commas (group m_entry 1)) = Ret trig
    /\ tp_extract U text = Ret tps
    /\ filter above_zero tps <> []
    /\ dca_extract text = Ret dcas
    /\ sl_extract text = Ret sl
    /\ sig = {| base := upper U (group m_side 2);
                symbol := upper U (group m_side 2) ++ quote;
                side := if str_eqb (upper U (group m_side 1)) (py "SHORT")
                        then py "sell" else py "buy";
                trigger := trig;
                tp_prices := filter above_zero tps;
                dca_prices := dcas;
                sl_price := sl;
                raw := firstn 500 text |}.
Proof.
  unfold parse_signal. intros H.
  destruct (found (search RE_NEW_SIGNAL text)) eqn:E1; simpl in H;
    [|discriminate].
  destruct (found (search RE_CANCELLED text)) eqn:E2; [discriminate|].
  destruct (found (search RE_HOURGLASS_CLOSED text)) eqn:E3; [discriminate|].
  destruct (search RE_SIDE_SYMBOL text) as [[m_side r1]|] eqn:E4;
    [|discriminate].
  destruct (str_eqb (upper U (group m_side 3)) (upper U quote)) eqn:E5;
    simpl in H; [|discriminate].
  apply str_eqb_eq in E5.
  destruct (search RE_ENTRY text) as [[m_entry r2]|] eqn:E6; [|discriminate].
  destruct (py_float (remove_commas (group m_entry 1))) as [trig|] eqn:E7;
    simpl in H; [|discriminate].
  destruct (tp_extract U text) as [tps|] eqn:E8; simpl in H; [|discriminate].
  destruct (filter above_zero tps) as [|p ps] eqn:E9; [discriminate|].
  destruct (dca_extract text) as [dcas|] eqn:E10; simpl in H; [|discriminate].
  destruct (sl_extract text) as [sl|] eqn:E11; simpl in H; [|discriminate].
  inversion H; subst sig.
  exists m_side, r1, m_entry, r2, trig, tps, dcas, sl.
  rewrite E9. repeat split; auto. discriminate.
Qed.

(** ** Scenario A *)

(** The literals of Scenario A, bit for bit, and as [repr] prints them. *)
Lemma scenario_A_doubles :
  dec "0.01740" = S754_finite false 5015208545039784 (-58)
  /\ dec "0.01719" = S754_finite false 4954680166047925 (-58)
  /\ dec "0.01698" = S754_finite false 4894151787056065 (-58)
  /\ dec "0.01670" = S754_finite false 4813447281733586 (-58)
  /\ dec "0.01601" = S754_finite false 4614568322188905 (-58)
  /\ dec "0.01800" = S754_finite false 5188146770730811 (-58)
  /\ dec "0.01846" = S754_finite false 5320732743760599 (-58)
  /\ map float_repr [dec "0.01740"; dec "0.01670"; dec "0.01800"]
     = [py "0.0174"; py "0.0167"; py "0.018"].
Proof. vm_compute. repeat split. Qed.

(** C1, as amended: for any input text in which the Scenario A fragments
    are what the extractors find (the first side-and-market token, the first
    Entry token, exactly the four TP tokens, the first DCA token, the first
    Stop Loss token), with an accepted new-signal phrase and neither a
    cancellation phrase nor a closed marker, [parse_signal] with quote
    [USDT] returns the Signal of Scenario A, [raw] being the first 500
    characters of the text. *)
Theorem scenario_A_parse (U : ucd) (text : str)
    (m_side m_entry m_dca m_sl : groups) (r1 r2 r3 r4 : str) :
  found (search RE_NEW_SIGNAL text) = true ->
  found (search RE_CANCELLED text) = false ->
  found (search RE_HOURGLASS_CLOSED text) = false ->
  search RE_SIDE_SYMBOL text = Some (m_side, r1) ->
  group m_side 1 = py "SHORT" ->
  group m_side 2 = py "OL" ->
  group m_side 3 = py "USDT" ->
  search RE_ENTRY text = Some (m_entry, r2) ->
  group m_entry 1 = py "0.01740" ->
  map (fun m => (group m 1, group m 2)) (finditer (RE_TP U) text)
    = [(py "1", py "0.01719"); (py "2", py "0.01698");
       (py "3", py "0.01670"); (py "4", py "0.01601")] ->
  search RE_DCA text = Some (m_dca, r3) ->
  group m_dca 1 = py "0.01800" ->
  search RE_SL text = Some (m_sl, r4) ->
  group m_sl 1 = py "0.01846" ->
  parse_signal U text (py "USDT")
    = Ret (Some (scenario_A_signal (firstn 500 text))).
Proof.
  intros N C H S S1 S2 S3 E E1 T D D1 L L1.
  unfold parse_signal, tp_extract, dca_extract, sl_extract.
  rewrite N, C, H, S, S1, S2, S3, E, E1, D, D1, L, L1.
  destruct (finditer (RE_TP U) text) as [|m1 [|m2 [|m3 [|m4 [|m5 l]]]]];
    simpl in T; try discriminate.
  inversion T as [[A1 B1 A2 B2 A3 B3 A4 B4]].
  cbn [tp_loop]. unfold tp_step.
  rewrite A1, B1, A2, B2, A3, B3, A4, B4.
  vm_compute. reflexivity.
Qed.

(** The text of [test_signal.py] is such a text. *)
Lemma scenario_A_parse_witness :
  parse_signal sample_ucd TEST_SIGNAL_WITH_DCA (py "USDT")
    = Ret (Some (scenario_A_signal (firstn 500 TEST_SIGNAL_WITH_DCA))).
Proof.
  eapply (@scenario_A_parse sample_ucd TEST_SIGNAL_WITH_DCA);
    vm_compute; reflexivity.
Defined.

(** C1, as stated, fails: a text can hold every Scenario A fragment, an
    accepted new-signal phrase and no cancellation phrase, and still parse
    to another Signal, because each extractor takes the first token it
    finds. *)
Lemma scenario_A_fragments_not_sufficient :
  forallb (fun f => contains f two_signals_text) scenario_A_fragments = true
  /\ found (search RE_NEW_SIGNAL two_signals_text) = true
  /\ found (search RE_CANCELLED two_signals_text) = false
  /\ found (search RE_HOURGLASS_CLOSED two_signals_text) = false
  /\ exists sig,
       parse_signal sample_ucd two_signals_text (py "USDT") = Ret (Some sig)
       /\ base sig = py "BTC" /\ symbol sig = py "BTCUSDT"
       /\ side sig = py "buy" /\ trigger sig = dec "42500.00"
       /\ ~ same_but_raw sig (scenario_A_signal (raw sig)).
Proof.
  repeat split; try (vm_compute; reflexivity).
  eexists. split; [vm_compute; reflexivity|].
  repeat split; try (vm_compute; reflexivity).
  intros (B & _). vm_compute in B. discriminate.
Qed.

(** ** Exceptions *)

(** C3: [parse_signal] is meant never to raise; on a signal whose only
    take-profit label has rank 0 it does. The list is still empty when
    [tps[idx - 1] = price] is reached with [idx = 0], and the assignment to
    index [-1] raises [IndexError]. *)
Theorem parse_signal_tp0_raises :
  found (search RE_NEW_SIGNAL tp0_text) = true
  /\ map (fun m => (group m 1, group m 2)) (finditer (RE_TP sample_ucd) tp0_text)
     = [(py "0", py "0.01719")]
  /\ list_assign (grow [] 0) (0 - 1) (dec "0.01719") = Raise IndexError
  /\ parse_signal sample_ucd tp0_text (py "USDT") = Raise IndexError.
Proof. vm_compute. repeat split. Qed.

(** ** Take-profit prices *)

(** C4: a text whose take-profit labels carry no positive price is meant to
    be rejected with the absent result. On a signal whose only take-profit
    label is [TP0: 0] the one token has rank 0 and the price 0.0, which is
    not above zero, and [parse_signal] raises [IndexError]: the defect of
    C3. *)
Theorem tp0_without_price_raises :
  map (tp_token sample_ucd) (finditer (RE_TP sample_ucd) tp0_zero_text)
  = [Ret (0, fzero)]
  /\ above_zero fzero = false
  /\ parse_signal sample_ucd tp0_zero_text (py "USDT") = Raise IndexError.
Proof. vm_compute. repeat split. Qed.

(** X22: on success [tp_prices] is non-empty and every element of it is
    strictly positive; and when the take-profit loop completes with a list
    without a positive price, the text is rejected with the absent
    result. *)
Theorem tp_prices_nonempty_positive (U : ucd) (text quote : str) :
  (forall sig, parse_signal U text quote = Ret (Some sig) ->
     tp_prices sig <> [] /\ Forall strictly_positive (tp_prices sig))
  /\ (forall tps, tp_extract U text = Ret tps ->
        Forall (fun p => ~ strictly_positive p) tps ->
        parse_signal U text quote = Ret None).
Proof.
  split.
  - intros sig H. apply parse_signal_success in H.
    destruct H as (m_side & r1 & m_entry & r2 & trig & tps & dcas & sl & H).
    destruct H as (_ & _ & _ & _ & _ & _ & _ & _ & NE & _ & _ & ->).
    simpl. split; [exact NE|].
    apply Forall_forall. intros p Hp. apply filter_In in Hp.
    apply positive_iff. tauto.
  - intros tps T F. unfold parse_signal.
    destruct (found (search RE_NEW_SIGNAL text)); simpl; [|reflexivity].
    destruct (found (search RE_CANCELLED text)); [reflexivity|].
    destruct (found (search RE_HOURGLASS_CLOSED text)); [reflexivity|].
    destruct (search RE_SIDE_SYMBOL text) as [[m_side r1]|]; [|reflexivity].
    destruct (str_eqb _ _); simpl; [|reflexivity].
    destruct (search RE_ENTRY text) as [[m_entry r2]|] eqn:E; [|reflexivity].
    destruct (entry_float _ E) as (n & d & ->). simpl.
    rewrite T. simpl.
    assert (Z : filter above_zero tps = []).
    { clear T. induction F as [|p l Hp _ IH]; simpl; [reflexivity|].
      destruct (above_zero p) eqn:P; [|exact IH].
      apply positive_iff in P. contradiction. }
    rewrite Z. reflexivity.
Qed.

(** Both halves on concrete texts: Scenario A, and Scenario A's opening
    lines, which name no take-profit level. *)
Lemma tp_prices_nonempty_positive_witness :
  (tp_prices (scenario_A_signal []) <> []
   /\ Forall strictly_positive (tp_prices (scenario_A_signal [])))
  /\ parse_signal sample_ucd
       (py "SHORT SIGNAL - OL/USDT | Entry: 0.01740 | TP1: 0") (py "USDT")
     = Ret None.
Proof.
  split.
  - apply (proj1 (tp_prices_nonempty_positive sample_ucd
                    TEST_SIGNAL_WITH_DCA (py "USDT"))
             {| base := py "OL"; symbol := py "OLUSDT"; side := py "sell";
                trigger := dec "0.01740";
                tp_prices := tp_prices (scenario_A_signal []);
                dca_prices := [dec "0.01800"];
                sl_price := Some (dec "0.01846");
                raw := firstn 500 TEST_SIGNAL_WITH_DCA |}).
    vm_compute. reflexivity.
  - apply (proj2 (tp_prices_nonempty_positive sample_ucd
                    (py "SHORT SIGNAL - OL/USDT | Entry: 0.01740 | TP1: 0")
                    (py "USDT")) [fzero]).
    + vm_compute. reflexivity.
    + repeat constructor. simpl. tauto.
Defined.

(** ** The symbol *)

(** On success the symbol is the upper-cased base followed by the quote
    as it was configured; the quote found in the text is the configured
    one up to case. *)
Lemma symbol_is_base_then_quote (U : ucd) (text quote : str) (sig : Signal) :
  parse_signal U text quote = Ret (Some sig) ->
  exists m rest,
    search RE_SIDE_SYMBOL text = Some (m, rest)
    /\ base sig = upper U (group m 2)
    /\ upper U (group m 3) = upper U quote
    /\ symbol sig = base sig ++ quote.
Proof.
  intros H. apply parse_signal_success in H.
  destruct H as (m_side & r1 & m_entry & r2 & trig & tps & dcas & sl & H).
  destruct H as (_ & _ & _ & S & Q & _ & _ & _ & _ & _ & _ & ->).
  exists m_side, r1. simpl. auto.
Qed.

(** C5: the symbol is meant to be upper case for a quote configured in any
    letter case; with the quote configured as [usdt] Scenario A parses, and
    the symbol is [OLusdt]: the quote is upper-cased for the comparison
    only. *)
Theorem symbol_keeps_configured_case :
  exists sig,
    parse_signal sample_ucd TEST_SIGNAL_WITH_DCA (py "usdt") = Ret (Some sig)
    /\ base sig = py "OL"
    /\ symbol sig = py "OLusdt"
    /\ symbol sig <> upper sample_ucd (base sig) ++ upper sample_ucd (py "usdt").
Proof.
  eexists. split; [vm_compute; reflexivity|].
  repeat split; try (vm_compute; reflexivity).
  vm_compute. discriminate.
Qed.

(** ** The fingerprint *)

(** C6: two Signals that agree on symbol, side, trigger, tp_prices and
    dca_prices have the same fingerprint; sl_price and raw do not enter
    it. *)
Theorem signal_hash_ignores_sl_and_raw (a b : Signal) :
  symbol a = symbol b ->
  side a = side b ->
  trigger a = trigger b ->
  tp_prices a = tp_prices b ->
  dca_prices a = dca_prices b ->
  signal_hash a = signal_hash b.
Proof.
  intros H1 H2 H3 H4 H5. unfold signal_hash, hash_core.
  rewrite H1, H2, H3, H4, H5. reflexivity.
Qed.

(** Scenario A's Signal, and the same with another base, no stop loss and
    another raw text. *)
Lemma signal_hash_ignores_sl_and_raw_witness :
  signal_hash (scenario_A_signal (py "first text"))
  = signal_hash
      {| base := py "ol"; symbol := py "OLUSDT"; side := py "sell";
         trigger := dec "0.01740";
         tp_prices := [dec "0.01719"; dec "0.01698"; dec "0.01670";
                       dec "0.01601"];
         dca_prices := [dec "0.01800"];
         sl_price := None;
         raw := py "second text" |}.
Proof.
  apply signal_hash_ignores_sl_and_raw; reflexivity.
Defined.

(** The fingerprint of Scenario A: the MD5 of
    [OLUSDT|sell|0.0174|[0.01719, 0.01698, 0.0167, 0.01601]|[0.018]]. *)
Lemma scenario_A_fingerprint (raw : str) :
  hash_core (scenario_A_signal raw)
    = py "OLUSDT|sell|0.0174|[0.01719, 0.01698, 0.0167, 0.01601]|[0.018]"
  /\ signal_hash (scenario_A_signal raw)
    = Ret (py "353a89e0c261f35f72e8dd19436caf0e").
Proof. split; vm_compute; reflexivity. Qed.

(** RFC 1321, appendix A.5 *)
Lemma md5_test_suite :
  MD5.hexdigest (bytes_of_string "") = py "d41d8cd98f00b204e9800998ecf8427e"
  /\ MD5.hexdigest (bytes_of_string "a") = py "0cc175b9c0f1b6a831c399e269772661"
  /\ MD5.hexdigest (bytes_of_string "abc")
     = py "900150983cd24fb0d6963f7d28e17f72"
  /\ MD5.hexdigest (bytes_of_string "message digest")
     = py "f96b697d7cb7938d525a2f31aaf161d0"
  /\ MD5.hexdigest (bytes_of_string "abcdefghijklmnopqrstuvwxyz")
     = py "c3fcd3d76192e4007dfb496cca67e13b".
Proof. vm_compute. repeat split. Qed.

(** ** The quote *)

(** C7: when the quote of the side-and-market token differs, up to case,
    from the configured quote, the result is absent. *)
Theorem quote_mismatch_rejected (U : ucd) (text quote : str)
    (m : groups) (rest : str) :
  search RE_SIDE_SYMBOL text = Some (m, rest) ->
  upper U (group m 3) <> upper U quote ->
  parse_signal U text quote = Ret None.
Proof.
  intros S Q. unfold parse_signal.
  destruct (found (search RE_NEW_SIGNAL text)); simpl; [|reflexivity].
  destruct (found (search RE_CANCELLED text)); [reflexivity|].
  destruct (found (search RE_HOURGLASS_CLOSED text)); [reflexivity|].
  rewrite S. apply str_eqb_neq in Q. rewrite Q. reflexivity.
Qed.

(** Scenario C: Scenario A's text with the quote configured as [EUR]. *)
Lemma quote_mismatch_rejected_witness :
  group (fst (match search RE_SIDE_SYMBOL TEST_SIGNAL_WITH_DCA with
              | Some m => m
              | None => ([], [])
              end)) 3 = py "USDT"
  /\ parse_signal sample_ucd TEST_SIGNAL_WITH_DCA (py "EUR") = Ret None.
Proof.
  split; [vm_compute; reflexivity|].
  eapply (@quote_mismatch_rejected sample_ucd TEST_SIGNAL_WITH_DCA (py "EUR")).
  - vm_compute. reflexivity.
  - vm_compute. discriminate.
Defined.

(** ** The averaging level *)

(** C10: a signal whose only averaging label is [DCA2: 0.5] gets
    [dca_prices = [2.0]]: the optional [1] of the pattern matches nothing
    and the number that follows [DCA] is the rank digit. *)
Theorem dca_rank_read_as_price :
  contains (py "DCA2: 0.5") dca2_text = true
  /\ contains (py "DCA1") dca2_text = false
  /\ exists sig,
       parse_signal sample_ucd dca2_text (py "USDT") = Ret (Some sig)
       /\ dca_prices sig = [dec "2"]
       /\ map float_repr (dca_prices sig) = [py "2.0"]
       /\ dca_prices sig <> [dec "0.5"]
       /\ dca_prices sig <> [].
Proof.
  split; [vm_compute; reflexivity|]. split; [vm_compute; reflexivity|].
  eexists. split; [vm_compute; reflexivity|].
  repeat split; try (vm_compute; reflexivity); vm_compute; discriminate.
Qed.

(** ** Integers that a double holds exactly *)

Lemma digits2_size (p : positive) : digits2_pos p = Pos.size p.
Proof. induction p; simpl; congruence. Qed.

Lemma digits2_bound (p : positive) :
  Zpos p < 2 ^ 53 -> Zpos (digits2_pos p) <= 53.
Proof.
  intros H. rewrite digits2_size.
  destruct (Z_le_gt_dec (Zpos (Pos.size p)) 53) as [L|G]; [exact L|].
  exfalso. pose proof (Pos.size_le p) as S.
  apply Pos2Z.pos_le_pos in S. rewrite Pos2Z.inj_pow in S.
  assert (2 ^ 54 <= 2 ^ Zpos (Pos.size p)) by (apply Z.pow_le_mono_r; lia).
  change (2 ^ 54) with (2 * 2 ^ 53) in *. lia.
Qed.

Lemma iter_xO_digits (p k : positive) :
  digits2_pos (Pos.iter xO p k) = (digits2_pos p + k)%positive.
Proof.
  induction k as [|k IH] using Pos.peano_ind.
  - simpl. lia.
  - rewrite Pos.iter_succ. simpl. rewrite IH. lia.
Qed.

Lemma iter_xO_value (p k : positive) :
  Zpos (Pos.iter xO p k) = Zpos p * 2 ^ Zpos k.
Proof.
  induction k as [|k IH] using Pos.peano_ind.
  - simpl. lia.
  - rewrite Pos.iter_succ, Pos2Z.inj_xO, IH, Pos2Z.inj_succ.
    rewrite Z.pow_succ_r by lia. ring.
Qed.

(** A mantissa of 53 bits with an exponent in range needs no rounding. *)
Lemma round_exact (m : positive) (e : Z) :
  Zpos (digits2_pos m) = 53 -> -1074 <= e <= 971 ->
  binary_round_aux prec emax false (Zpos m) e loc_Exact
    = S754_finite false m e.
Proof.
  intros D E.
  assert (F : fexp prec emax (Zdigits2 (Zpos m) + e) - e = 0).
  { unfold fexp, SpecFloat.emin, Zdigits2, prec, emax. rewrite D. lia. }
  unfold binary_round_aux, shr_fexp. rewrite F.
  cbv [shr shr_record_of_loc shr_m shr_r shr_s loc_of_shr_record
       round_nearest_even].
  rewrite F.
  destruct (Z.leb_spec e (emax - prec)) as [L|G]; [reflexivity|].
  unfold emax, prec in G. lia.
Qed.

(** [float(i)] is [i] itself when [0 < i < 2^53]: the result is
    [m * 2^e] with [e <= 0] and [m = i * 2^(-e)]. *)
Lemma float_of_int_exact (i : Z) :
  0 < i < 2 ^ 53 ->
  exists m e,
    float_of_int i = Ret (S754_finite false m e)
    /\ e <= 0 /\ Zpos m = i * 2 ^ (- e).
Proof.
  intros [P B]. destruct i as [|p|p]; try lia.
  pose proof (digits2_bound B) as D.
  unfold float_of_int, binary_normalize, binary_round.
  assert (F : fexp prec emax (Zpos (digits2_pos p) + 0)
              = Zpos (digits2_pos p) - 53).
  { unfold fexp, SpecFloat.emin, prec, emax. lia. }
  rewrite F. unfold shl_align.
  destruct (Zpos (digits2_pos p) - 53 - 0) as [|k|k] eqn:K; try lia.
  - rewrite round_exact by lia.
    exists p, 0. repeat split; simpl; lia.
  - rewrite round_exact.
    + exists (Pos.iter xO p k), (Zpos (digits2_pos p) - 53).
      repeat split; [lia|].
      rewrite iter_xO_value. f_equal. f_equal. lia.
    + rewrite iter_xO_digits. lia.
    + lia.
Qed.

Lemma thousand_exact : thousand = S754_finite false (1000 * 2 ^ 43) (-43).
Proof. vm_compute. reflexivity. Qed.

(** ** The snowflake timestamp *)

Lemma snowflake_ms_bound (n : Z) :
  0 < n < 2 ^ 64 -> 0 < Z.shiftr n 22 + discord_epoch < 2 ^ 53.
Proof.
  intros [P B]. rewrite Z.shiftr_div_pow2 by lia.
  assert (0 <= n / 2 ^ 22 < 2 ^ 42).
  { split; [apply Z.div_pos; lia|].
    apply Z.div_lt_upper_bound; [lia|].
    change (2 ^ 22 * 2 ^ 42) with (2 ^ 64). lia. }
  unfold discord_epoch.
  change (2 ^ 53) with (2 ^ 42 * 2048). change (2 ^ 42) with 4398046511104 in *.
  lia.
Qed.

(** C8, as amended: for every message whose id parses as a non-zero
    unsigned integer [n], with [ms = (n >> 22) + 1420070400000]: whenever
    [float(ms)] is a double [x], that is, does not overflow,
    [message_timestamp_unix] returns [x / 1000.0]; when [ms] is below
    [2 ^ 53], the double holds [ms] exactly, as [m * 2^e], so that the
    result is the IEEE quotient of [ms] itself by [1000.0]; and [ms] is
    below [2 ^ 53] for every [n] below [2 ^ 64]. Neither [iso] nor the
    [timestamp] field of the message enters the result. *)
Theorem snowflake_timestamp (U : ucd) (iso : str -> option float)
    (msg : RawMessage) (s : str) (n : Z) :
  msg_id msg = Some s ->
  py_int U s = Ret n ->
  0 < n ->
  (forall x,
     float_of_int (Z.shiftr n 22 + discord_epoch) = Ret x ->
     message_timestamp_unix U iso msg = Ret (Some (fdiv x thousand)))
  /\ (Z.shiftr n 22 + discord_epoch < 2 ^ 53 ->
      exists m e,
        e <= 0
        /\ Zpos m = (Z.shiftr n 22 + discord_epoch) * 2 ^ (- e)
        /\ message_timestamp_unix U iso msg
           = Ret (Some (fdiv (S754_finite false m e) thousand)))
  /\ (n < 2 ^ 64 -> Z.shiftr n 22 + discord_epoch < 2 ^ 53).
Proof.
  intros I P B.
  assert (G : forall x,
             float_of_int (Z.shiftr n 22 + discord_epoch) = Ret x ->
             message_timestamp_unix U iso msg = Ret (Some (fdiv x thousand))).
  { intros x F.
    unfold message_timestamp_unix, snowflake_time. rewrite I, P. cbn [bind].
    destruct (Z.eqb_spec n 0) as [Z|_]; [lia|].
    unfold int_truediv_float. rewrite F. reflexivity. }
  split; [exact G|]. split.
  - intros L.
    assert (R : 0 < Z.shiftr n 22 + discord_epoch < 2 ^ 53).
    { split; [|exact L]. rewrite Z.shiftr_div_pow2 by lia.
      assert (0 <= n / 2 ^ 22) by (apply Z.div_pos; lia).
      unfold discord_epoch. lia. }
    destruct (float_of_int_exact R) as (m & e & F & E & V).
    exists m, e. split; [exact E|]. split; [exact V|]. apply G, F.
  - intros L. apply snowflake_ms_bound. lia.
Qed.

(** The identifier of the specification's example, and one of 81 bits,
    whose millisecond count [float] rounds. *)
Lemma snowflake_timestamp_witness :
  (exists m e,
     e <= 0
     /\ Zpos m = (Z.shiftr 1234567890123456789 22 + discord_epoch) * 2 ^ (- e)
     /\ message_timestamp_unix sample_ucd (fun _ => None)
          (message_with_id (py "1234567890123456789"))
        = Ret (Some (fdiv (S754_finite false m e) thousand)))
  /\ message_timestamp_unix sample_ucd (fun _ => None)
       (message_with_id (py "1208925819614680953389063"))
     = Ret (Some (fdiv (S754_finite false 4503621815970689 6) thousand)).
Proof.
  split.
  - apply (@snowflake_timestamp sample_ucd (fun _ => None)
             (message_with_id (py "1234567890123456789"))
             (py "1234567890123456789") 1234567890123456789).
    + reflexivity.
    + vm_compute. reflexivity.
    + lia.
    + vm_compute. reflexivity.
  - apply (@snowflake_timestamp sample_ucd (fun _ => None)
             (message_with_id (py "1208925819614680953389063"))
             (py "1208925819614680953389063") 1208925819614680953389063).
    + reflexivity.
    + vm_compute. reflexivity.
    + lia.
    + vm_compute. reflexivity.
Defined.

(** The same example in figures: 1714414322.167 seconds, which is also the
    double nearest to the exact quotient. *)
Lemma snowflake_example :
  message_timestamp_unix sample_ucd (fun _ => None)
    (message_with_id (py "1234567890123456789"))
  = Ret (Some (S754_finite false 7190774849122337 (-22)))
  /\ float_repr (S754_finite false 7190774849122337 (-22))
     = py "1714414322.167"
  /\ float_of_ratio (Z.shiftr 1234567890123456789 22 + 1420070400000) 1000
     = S754_finite false 7190774849122337 (-22).
Proof. vm_compute. repeat split. Qed.

(** C8, as stated, fails: an id of 401 digits parses as a non-zero
    unsigned integer, and the division raises [OverflowError], which the
    [except (ValueError, TypeError)] clause lets through. *)
Lemma huge_identifier_raises :
  py_int sample_ucd (49 :: repeat 48 400) = Ret (10 ^ 400)
  /\ message_timestamp_unix sample_ucd (fun _ => None)
       (message_with_id (49 :: repeat 48 400))
     = Raise OverflowError.
Proof. split; vm_compute; reflexivity. Qed.

(** ** [fetch_after] *)

(** The case analysis of one [try] block. *)
Ltac try_block_cases srv w :=
  unfold try_block, do_get, with_json;
  destruct (srv (requests_made w)) as [?e|?r]; cbn [fst snd];
  [| destruct (status_code _ =? 429);
     [ destruct (json _) as [?p| |?e]; cbn [fst snd];
       [ destruct (rate_limit_wait _) as [?d|?e]; cbn [fst snd];
         [ destruct (time_sleep_raises _); cbn [fst snd] |]
       | |]
     | destruct (raise_for_status _); cbn [fst snd];
       [| destruct (json _) as [?p| |?e]; cbn [fst snd] ] ] ].

Lemma try_block_requests (srv : remote) (w : world) :
  requests_made (snd (try_block srv w)) = S (requests_made w).
Proof. try_block_cases srv w; reflexivity. Qed.

(** The log only grows, and every attempt starts with a request. *)
Lemma try_block_log (srv : remote) (w : world) :
  exists tl, log (snd (try_block srv w)) = log w ++ Get :: tl.
Proof.
  try_block_cases srv w; cbn [do_sleep log];
    rewrite <- ?app_assoc; eexists; reflexivity.
Qed.

Lemma try_block_http_failure (srv : remote) (w : world) :
  http_failure (srv (requests_made w)) = true ->
  try_block srv w
  = (Caught HTTPError,
     {| requests_made := S (requests_made w); log := log w ++ [Get] |}).
Proof.
  unfold try_block, do_get, http_failure, raise_for_status.
  destruct (srv (requests_made w)) as [e|r]; [discriminate|].
  intros H. apply andb_true_iff in H. destruct H as [H H3].
  apply andb_true_iff in H. destruct H as [H1 H2].
  apply negb_true_iff in H1. rewrite H1, H2, H3. reflexivity.
Qed.

Lemma try_block_as_transport (srv : remote) (w : world) :
  if http_failure (srv (requests_made w))
  then try_block (as_transport_failure srv) w
       = (Caught ConnectionError,
          {| requests_made := S (requests_made w); log := log w ++ [Get] |})
  else try_block (as_transport_failure srv) w = try_block srv w.
Proof.
  unfold try_block, do_get, as_transport_failure.
  destruct (http_failure (srv (requests_made w))); reflexivity.
Qed.

Lemma fetch_loop_as_transport (srv : remote) (attempts : list Z) :
  forall w,
    fetch_loop srv attempts w
    = fetch_loop (as_transport_failure srv) attempts w.
Proof.
  induction attempts as [|a rest IH]; intros w; [reflexivity|].
  cbn [fetch_loop]. pose proof (try_block_as_transport srv w) as T.
  destruct (http_failure (srv (requests_made w))) eqn:H.
  - rewrite T, (try_block_http_failure srv w H). apply IH.
  - rewrite T. destruct (try_block srv w) as [[| p | e | e] w1];
      [apply IH | reflexivity | apply IH | reflexivity].
Qed.

(** At a good reply the turn ends with [return] on its body; at another
    quiet reply it ends in the [except] clause. *)
Lemma try_block_turn (srv : remote) (w : world) :
  match ok_batch (srv (requests_made w)) with
  | Some p => fst (try_block srv w) = Return p
  | None =>
    quiet (srv (requests_made w)) = true ->
    exists e, fst (try_block srv w) = Caught e
  end.
Proof.
  unfold try_block, do_get, with_json, ok_batch, quiet, http_failure,
    raise_for_status.
  destruct (srv (requests_made w)) as [e|r]; [intros _; exists e; reflexivity|].
  destruct (status_code r =? 429); [discriminate|]. cbn [negb andb].
  destruct ((400 <=? status_code r) && (status_code r <? 600));
    [intros _; eexists; reflexivity|].
  cbn [orb].
  destruct (json r) as [p| |e];
    [reflexivity | intros _; eexists; reflexivity | discriminate].
Qed.

Lemma fetch_loop_result (srv : remote) (attempts : list Z) :
  forall w,
    quiet_until_ok (map srv (seq (requests_made w) (length attempts))) = true ->
    fst (fetch_loop srv attempts w)
    = Ret (first_ok (map srv (seq (requests_made w) (length attempts)))).
Proof.
  induction attempts as [|a rest IH]; intros w Q; [reflexivity|].
  cbn [fetch_loop length seq map first_ok quiet_until_ok] in *.
  pose proof (try_block_requests srv w) as R.
  pose proof (try_block_turn srv w) as T.
  destruct (try_block srv w) as [t w1]. cbn [fst snd] in R, T.
  destruct (ok_batch (srv (requests_made w))) as [p|].
  - subst t. reflexivity.
  - apply andb_true_iff in Q. destruct Q as [Q0 Q].
    destruct (T Q0) as [e ->].
    destruct (a <? 2); rewrite IH; cbn [do_sleep requests_made];
      rewrite ?R; try reflexivity; exact Q.
Qed.

Lemma fetch_loop_log (srv : remote) (attempts : list Z) :
  forall w, exists tl, log (snd (fetch_loop srv attempts w)) = log w ++ tl.
Proof.
  induction attempts as [|a rest IH]; intros w.
  - exists []. simpl. rewrite app_nil_r. reflexivity.
  - cbn [fetch_loop]. destruct (try_block_log srv w) as [tl T].
    destruct (try_block srv w) as [[| p | e | e] w1]; simpl in T.
    + destruct (IH w1) as [tl' E]. rewrite E, T, <- app_assoc. eauto.
    + simpl. rewrite T. eauto.
    + destruct (a <? 2).
      * destruct (IH (do_sleep (float_of_nat 3) w1)) as [tl' E].
        rewrite E. simpl. rewrite T, <- !app_assoc. eauto.
      * destruct (IH w1) as [tl' E]. rewrite E, T, <- app_assoc. eauto.
    + simpl. rewrite T. eauto.
Qed.

Lemma fetch_loop_starts_with_get (srv : remote) (a : Z) (rest : list Z)
    (w : world) :
  exists tl, log (snd (fetch_loop srv (a :: rest) w)) = log w ++ Get :: tl.
Proof.
  cbn [fetch_loop]. destruct (try_block_log srv w) as [tl T].
  destruct (try_block srv w) as [[| p | e | e] w1]; simpl in T.
  - destruct (fetch_loop_log srv rest w1) as [tl' E].
    rewrite E, T, <- app_assoc. simpl. eauto.
  - simpl. rewrite T. eauto.
  - destruct (a <? 2).
    + destruct (fetch_loop_log srv rest (do_sleep (float_of_nat 3) w1))
        as [tl' E].
      rewrite E. simpl. rewrite T, <- !app_assoc. simpl. eauto.
    + destruct (fetch_loop_log srv rest w1) as [tl' E].
      rewrite E, T, <- app_assoc. simpl. eauto.
  - simpl. rewrite T. eauto.
Qed.

(** C2, as amended: an unsuccessful (4xx or 5xx) response other than 429
    is handled exactly as a transport-level failure. The call does not
    fail at it: it sleeps 3 seconds and goes on to the next attempt. As
    long as the replies up to the first good one are such responses,
    transport failures, or other responses than 429 whose body the decoder
    returns or refuses, nothing is raised to the caller; when all three
    attempts end with such a response, the call returns the empty batch
    after three requests and two sleeps. *)
Theorem http_failure_is_retried (srv : remote) :
  fetch_after srv = fetch_after (as_transport_failure srv)
  /\ (quiet_until_ok [srv 0%nat; srv 1%nat; srv 2%nat] = true ->
      exists p, fst (fetch_after srv) = Ret p)
  /\ (http_failure (srv 0%nat) = true ->
      exists tl,
        log (snd (fetch_after srv))
        = Get :: Sleep (float_of_nat 3) :: Get :: tl)
  /\ (http_failure (srv 0%nat) = true ->
      http_failure (srv 1%nat) = true ->
      http_failure (srv 2%nat) = true ->
      fetch_after srv
      = (Ret (Batch []),
         {| requests_made := 3;
            log := [Get; Sleep (float_of_nat 3); Get;
                    Sleep (float_of_nat 3); Get] |})).
Proof.
  split; [apply fetch_loop_as_transport|].
  split.
  { intros Q. unfold fetch_after. rewrite fetch_loop_result; [eauto|].
    exact Q. }
  split.
  - intros H0. unfold fetch_after. cbn [fetch_loop].
    rewrite (try_block_http_failure srv new_world H0).
    change (0 <? 2) with true. cbv iota.
    destruct (fetch_loop_starts_with_get srv 1 [2]
                (do_sleep (float_of_nat 3)
                   {| requests_made := 1; log := [] ++ [Get] |}))
      as [tl E].
    exists tl. exact E.
  - intros H0 H1 H2. unfold fetch_after. cbn [fetch_loop].
    rewrite (try_block_http_failure srv new_world H0).
    change (0 <? 2) with true. cbv iota.
    rewrite try_block_http_failure by exact H1.
    change (1 <? 2) with true. cbv iota.
    rewrite try_block_http_failure by exact H2.
    reflexivity.
Qed.

(** Three 404 responses in a row. *)
Lemma http_failure_is_retried_witness :
  fetch_after (fun _ => not_found)
  = (Ret (Batch []),
     {| requests_made := 3;
        log := [Get; Sleep (float_of_nat 3); Get;
                Sleep (float_of_nat 3); Get] |})
  /\ exists p, fst (fetch_after (fun _ => not_found)) = Ret p.
Proof.
  split.
  - apply (proj2 (proj2 (proj2 (http_failure_is_retried (fun _ => not_found)))));
      reflexivity.
  - apply (proj1 (proj2 (http_failure_is_retried (fun _ => not_found)))).
    reflexivity.
Defined.

(** C2, as stated, fails: on 404 responses the call neither fails nor
    stops at the first attempt; it makes three requests, sleeps 3 seconds
    twice, and returns the empty batch. *)
Lemma not_found_is_no_hard_failure :
  http_failure not_found = true
  /\ fst (fetch_after (fun _ => not_found)) = Ret (Batch [])
  /\ requests_made (snd (fetch_after (fun _ => not_found))) = 3%nat
  /\ log (snd (fetch_after (fun _ => not_found)))
     = [Get; Sleep (dec "3"); Get; Sleep (dec "3"); Get].
Proof. vm_compute. repeat split. Qed.

(** ** [extract_text] *)

Lemma kept_app (l1 l2 : list (option str)) :
  kept (l1 ++ l2) = kept l1 ++ kept l2.
Proof. unfold kept. apply flat_map_app. Qed.

Lemma append_if_kept (parts : list str) (x : option str) :
  append_if parts x = parts ++ kept [x].
Proof.
  destruct x as [[|c s]|]; simpl; rewrite ?app_nil_r; reflexivity.
Qed.

Lemma fields_fold (fs : list Field) :
  forall parts,
    fold_left field_parts fs parts
    = parts ++ kept (flat_map (fun f => [name f; value f]) fs).
Proof.
  induction fs as [|f fs IH]; intros parts; cbn [fold_left flat_map].
  - simpl. rewrite app_nil_r. reflexivity.
  - rewrite IH. unfold field_parts. rewrite !append_if_kept.
    change ([name f; value f] ++ flat_map (fun f0 => [name f0; value f0]) fs)
      with ([name f] ++ [value f]
              ++ flat_map (fun f0 => [name f0; value f0]) fs).
    rewrite !kept_app, <- !app_assoc. reflexivity.
Qed.

(** One turn of the loop over the embeds: it adds the fragments of the
    embed, unless the embed holds [null] for its fields or its footer. *)
Lemma embed_parts_kept (parts : list str) (e : Embed) :
  embed_parts parts e
  = match fields e, footer e with
    | Null, _ => Raise TypeError
    | _, Null => Raise AttributeError
    | _, _ => Ret (parts ++ kept (embed_fragments e))
    end.
Proof.
  unfold embed_parts, embed_fragments, iterable, footer_text.
  destruct (fields e) as [| |fs]; [| reflexivity |];
    (destruct (footer e) as [| |ft]; [| reflexivity |]);
    cbn [bind items]; rewrite ?fields_fold, !append_if_kept;
    change [title e; description e] with ([title e] ++ [description e]);
    rewrite !kept_app, <- !app_assoc; reflexivity.
Qed.

Lemma embeds_loop_kept (es : list Embed) :
  forallb (fun e => negb (is_null (fields e)) && negb (is_null (footer e))) es
  = true ->
  forall parts,
    embeds_loop es parts = Ret (parts ++ kept (flat_map embed_fragments es)).
Proof.
  induction es as [|e es IH]; intros F parts; cbn [embeds_loop flat_map].
  - simpl. rewrite app_nil_r. reflexivity.
  - cbn [forallb] in F. apply andb_true_iff in F. destruct F as [Fe F].
    rewrite embed_parts_kept.
    destruct (fields e); destruct (footer e); try discriminate Fe;
      cbn [bind]; rewrite (IH F), kept_app, <- app_assoc; reflexivity.
Qed.

Lemma embeds_loop_raises (es : list Embed) :
  forallb (fun e => negb (is_null (fields e)) && negb (is_null (footer e))) es
  = false ->
  forall parts,
    embeds_loop es parts = Raise TypeError
    \/ embeds_loop es parts = Raise AttributeError.
Proof.
  induction es as [|e es IH]; intros F parts; cbn [embeds_loop];
    [discriminate|].
  cbn [forallb] in F. rewrite embed_parts_kept.
  destruct (fields e); destruct (footer e); cbn [bind]; auto;
    apply IH; exact F.
Qed.

Lemma filter_nonempty_kept (l : list (option str)) :
  filter nonempty (kept l) = kept l.
Proof.
  induction l as [|[[|c s]|] l IH]; simpl; rewrite ?IH; reflexivity.
Qed.

(** [join] puts the delimiter before every fragment but the first. *)
Lemma join_delimited (frags : list str) :
  join (py " | ") frags = delimited frags.
Proof.
  change (py " | ") with [32; 124; 32].
  destruct frags as [|f rest]; [reflexivity|]. cbn [delimited].
  revert f. induction rest as [|g rest IH]; intros f.
  - simpl. rewrite app_nil_r. reflexivity.
  - change (join [32; 124; 32] (f :: g :: rest))
      with (f ++ [32; 124; 32] ++ join [32; 124; 32] (g :: rest)).
    rewrite IH. cbn [flat_map]. rewrite <- !app_assoc. reflexivity.
Qed.

Lemma collect_parts_kept (msg : RawMessage) :
  no_null_container msg = true ->
  collect_parts msg = Ret (kept (fragments msg)).
Proof.
  unfold no_null_container, collect_parts, fragments, iterable.
  intros N. apply andb_true_iff in N. destruct N as [N F].
  destruct (embeds msg) as [| |es]; [| discriminate |];
    cbn [bind items embeds_loop flat_map] in *.
  - rewrite append_if_kept. reflexivity.
  - rewrite (embeds_loop_kept _ F), append_if_kept.
    change (content msg :: flat_map embed_fragments es)
      with ([content msg] ++ flat_map embed_fragments es).
    rewrite kept_app. reflexivity.
Qed.

Lemma extract_text_ok (U : ucd) (unescape : str -> str) (msg : RawMessage) :
  no_null_container msg = true ->
  exists t, extract_text U unescape msg = Ret t.
Proof.
  intros N. unfold extract_text, joined_text.
  rewrite (collect_parts_kept _ N). cbn [bind]. eauto.
Qed.

(** C9, as amended: for every message none of whose containers holds
    [null], the string that [extract_text] builds before the clean-up is
    made of the fragments of the message in the order content, then per
    embed title, description, each field's name and value, footer text,
    without the empty and the absent ones, each but the first behind the
    delimiter space, bar, space; the text returned is that string, cleaned
    up. *)
Theorem extract_text_fragments (U : ucd) (unescape : str -> str)
    (msg : RawMessage) :
  no_null_container msg = true ->
  joined_text msg = Ret (delimited (kept (fragments msg)))
  /\ extract_text U unescape msg
     = Ret (clean_up U unescape (delimited (kept (fragments msg)))).
Proof.
  intros N.
  assert (J : joined_text msg = Ret (delimited (kept (fragments msg)))).
  { unfold joined_text. rewrite (collect_parts_kept _ N). cbn [bind].
    rewrite filter_nonempty_kept, join_delimited. reflexivity. }
  split; [exact J|]. unfold extract_text. rewrite J. reflexivity.
Qed.

(** A message with three embeds: seven fragments are kept, in order, and
    six delimiters separate them. *)
Lemma extract_text_fragments_witness :
  joined_text full_message = Ret (py "C | T1 | N1 | V2 | F1 | D2 | T3")
  /\ extract_text sample_ucd (fun t => t) full_message
     = Ret (py "C | T1 | N1 | V2 | F1 | D2 | T3").
Proof.
  destruct (@extract_text_fragments sample_ucd (fun t => t) full_message
              eq_refl) as [J E].
  split; [exact J | exact E].
Defined.

(** C9, as stated, fails: for a message with a content and an embed whose
    [footer] holds [null], the fragments to collect are the content and the
    title, but [extract_text] raises [AttributeError]. *)
Lemma null_footer_raises :
  kept (fragments null_footer_message) = [py "NEW SIGNAL"; py "AO Trading"]
  /\ extract_text sample_ucd (fun t => t) null_footer_message
     = Raise AttributeError.
Proof. split; vm_compute; reflexivity. Qed.

(** A message with an empty content, an embed whose description is empty
    and whose one field has no value, and a footer. *)
Lemma extract_text_example :
  extract_text sample_ucd (fun t => t)
    {| msg_id := None; content := Some [];
       embeds := Present
         [ {| title := Some (py "SHORT SIGNAL - OL/USDT");
              description := Some [];
              fields := Present
                [ {| name := Some (py "Entry: 0.01740"); value := None |};
                  {| name := Some (py "TP1");
                     value := Some (py "0.01719 <:up:12>") |} ];
              footer := Present {| text := Some (py " AO Trading ") |} |} ];
       timestamp := None |}
  = Ret (py "SHORT SIGNAL - OL/USDT | Entry: 0.01740 | TP1 | 0.01719  |  AO Trading").
Proof. vm_compute. reflexivity. Qed.

(** ** Which exceptions [parse_signal] can raise *)

Lemma sample_ucd_wf : ucd_wf sample_ucd.
Proof.
  intros c v. simpl. unfold sample_digit.
  destruct (find (fun z => in_range z (z + 9) c) decimal_zeros) as [z|] eqn:F;
    [|discriminate].
  intros E. inversion E; subst v. clear E.
  apply find_some in F. destruct F as [I R].
  unfold in_range in R. apply andb_true_iff in R. destruct R as [R1 R2].
  apply Z.leb_le in R1, R2.
  assert (B : forallb (fun z => forallb (fun i => negb (is_space (z + i)))
                                  [0; 1; 2; 3; 4; 5; 6; 7; 8; 9])
                decimal_zeros = true) by (vm_compute; reflexivity).
  rewrite forallb_forall in B. specialize (B z I).
  rewrite forallb_forall in B.
  assert (J : In (c - z) [0; 1; 2; 3; 4; 5; 6; 7; 8; 9]).
  { assert (D : c - z = 0 \/ c - z = 1 \/ c - z = 2 \/ c - z = 3 \/ c - z = 4
                \/ c - z = 5 \/ c - z = 6 \/ c - z = 7 \/ c - z = 8
                \/ c - z = 9) by lia.
    simpl. intuition auto. }
  specialize (B _ J). replace (z + (c - z)) with c in B by lia.
  apply negb_true_iff in B. split; [exact B | lia].
Qed.

Lemma unicode_digit_value (U : ucd) (c : char) :
  ucd_wf U -> unicode_digit U c = true ->
  exists v, digit_value U c = Some v /\ 0 <= v <= 9
            /\ is_space c = false /\ (c =? 95) = false
            /\ c <> 43 /\ c <> 45.
Proof.
  intros W. unfold unicode_digit.
  destruct (digit_value U c) as [v|] eqn:D; [|discriminate]. intros _.
  exists v. split; [reflexivity|].
  unfold digit_value in D. destruct (is_ascii c) eqn:A.
  - destruct (ascii_digit c) eqn:G; [|discriminate].
    inversion D; subst v. clear D.
    unfold ascii_digit, in_range in G. apply andb_true_iff in G.
    destruct G as [G1 G2]. apply Z.leb_le in G1, G2.
    assert (S : forallb (fun i => negb (is_space (48 + i)))
                  [0; 1; 2; 3; 4; 5; 6; 7; 8; 9] = true)
      by (vm_compute; reflexivity).
    rewrite forallb_forall in S.
    assert (J : In (c - 48) [0; 1; 2; 3; 4; 5; 6; 7; 8; 9]).
    { assert (D : c - 48 = 0 \/ c - 48 = 1 \/ c - 48 = 2 \/ c - 48 = 3
                  \/ c - 48 = 4 \/ c - 48 = 5 \/ c - 48 = 6 \/ c - 48 = 7
                  \/ c - 48 = 8 \/ c - 48 = 9) by lia.
      simpl. intuition auto. }
    specialize (S _ J). replace (48 + (c - 48)) with c in S by lia.
    apply negb_true_iff in S.
    repeat split; try lia; exact S.
  - destruct (W c v D) as [S V].
    unfold is_ascii in A. apply andb_false_iff in A.
    rewrite Z.leb_gt, Z.ltb_ge in A.
    repeat split; try lia; exact S.
Qed.

(** [int] brings a decimal digit of any script to an ASCII digit. *)
Lemma int_ascii_digit (U : ucd) (W : ucd_wf U) (c : char) :
  unicode_digit U c = true -> ascii_digit (int_ascii U c) = true.
Proof.
  intros D. destruct (unicode_digit_value c W D) as (v & E & V & S & _).
  unfold int_ascii. rewrite E, S.
  destruct (in_range 0 126 c) eqn:R.
  - unfold digit_value in E.
    assert (A : is_ascii c = true).
    { unfold in_range in R. unfold is_ascii.
      apply andb_true_iff in R. destruct R as [R1 R2].
      apply Z.leb_le in R1, R2. apply andb_true_iff.
      split; [apply Z.leb_le | apply Z.ltb_lt]; lia. }
    rewrite A in E. destruct (ascii_digit c); [reflexivity | discriminate].
  - unfold ascii_digit, in_range. apply andb_true_iff.
    split; apply Z.leb_le; lia.
Qed.

Lemma ascii_digit_plain (c : char) :
  ascii_digit c = true ->
  c_space c = false /\ (c =? 95) = false /\ (c =? 43) = false
  /\ (c =? 45) = false /\ 0 <= c - 48.
Proof.
  unfold ascii_digit, c_space, in_range. intros D.
  apply andb_true_iff in D. destruct D as [D1 D2]. apply Z.leb_le in D1, D2.
  repeat split; try lia; apply Z.eqb_neq; lia.
Qed.

Lemma int_digits_total (w : str) :
  forallb ascii_digit w = true ->
  forall acc pending, 0 <= acc -> (w <> [] \/ pending = false) ->
    exists n, int_digits acc pending w = Some n /\ 0 <= n.
Proof.
  induction w as [|c w IH]; cbn [int_digits forallb];
    intros F acc pending A P.
  - destruct P as [P | ->]; [congruence|]. eauto.
  - apply andb_true_iff in F. destruct F as [Fc F].
    destruct (ascii_digit_plain _ Fc) as (_ & N & _ & _ & V).
    rewrite N, Fc. apply IH; auto. lia.
Qed.

Lemma c_lstrip_id (w : str) :
  match w with c :: _ => c_space c = false | [] => True end ->
  c_lstrip w = w.
Proof. destruct w as [|c w]; simpl; [auto|]. intros ->. reflexivity. Qed.

Lemma c_strip_digits (w : str) :
  forallb ascii_digit w = true -> c_strip w = w.
Proof.
  intros F. unfold c_strip.
  assert (H : forall l, forallb ascii_digit l = true -> c_lstrip l = l).
  { intros l L. apply c_lstrip_id. destruct l as [|c l]; [exact I|].
    simpl in L. apply andb_true_iff in L. destruct L as [L _].
    apply (ascii_digit_plain _ L). }
  rewrite (H w F), H, rev_involutive; [reflexivity|].
  rewrite forallb_forall in *. intros x X. apply F, in_rev, X.
Qed.

Lemma digit_count_digits (w : str) :
  forallb ascii_digit w = true -> digit_count w = Z.of_nat (length w).
Proof.
  intros F. unfold digit_count. f_equal. f_equal.
  induction w as [|c w IH]; [reflexivity|].
  simpl in *. apply andb_true_iff in F. destruct F as [-> F].
  simpl. f_equal. auto.
Qed.

(** [int] on what [\d+] captures: it returns the rank, which is not
    negative, unless the digits are more than the interpreter converts. *)
Lemma py_int_digits (U : ucd) (W : ucd_wf U) (w : str) :
  w <> [] -> forallb (unicode_digit U) w = true ->
  if Z.of_nat (length w) <=? max_str_digits
  then exists n, py_int U w = Ret n /\ 0 <= n
  else py_int U w = Raise ValueError.
Proof.
  intros N F. unfold py_int.
  assert (A : forallb ascii_digit (map (int_ascii U) w) = true).
  { rewrite forallb_forall in *. intros c C. apply in_map_iff in C.
    destruct C as (c0 & <- & C). apply (int_ascii_digit W), F, C. }
  rewrite (c_strip_digits _ A).
  destruct (@int_digits_total _ A 0 true) as (n & E & P);
    [lia | left; destruct w; [congruence | discriminate] |].
  pose proof (digit_count_digits _ A) as L. rewrite length_map in L.
  destruct (map (int_ascii U) w) as [|c t] eqn:M.
  { destruct w; [congruence | discriminate]. }
  cbn [forallb] in A. apply andb_true_iff in A. destruct A as [Ac _].
  destruct (ascii_digit_plain _ Ac) as (_ & _ & N1 & N2 & _).
  rewrite N1, N2, E, L.
  destruct (Z.of_nat (length w) <=? max_str_digits); eauto.
Qed.




(** What the loop reads from one TP token: the price always converts, and
    the rank converts unless it has more digits than [int] takes. *)
Lemma tp_token_cases (U : ucd) (W : ucd_wf U) (w : str) (m : groups) :
  matches (RE_TP U) w [] m ->
  exists price,
    py_float (remove_commas (group m 2)) = Ret price
    /\ ((exists idx, py_int U (group m 1) = Ret idx /\ 0 <= idx)
        \/ (py_int U (group m 1) = Raise ValueError
            /\ max_str_digits < Z.of_nat (length (group m 1)))).
Proof.
  intros M. apply tp_capture in M. destruct M as [[N D] F].
  destruct (py_float_decimal F) as (n & d & E).
  exists (float_of_ratio n d). split; [exact E|].
  pose proof (py_int_digits W N D) as P.
  destruct (Z.leb_spec (Z.of_nat (length (group m 1))) max_str_digits).
  - left. exact P.
  - right. split; [exact P | lia].
Qed.



(** A first TP label of rank 0 makes the extraction raise [IndexError]. *)
Lemma tp_extract_rank_0 (U : ucd) (W : ucd_wf U) (text : str) (m : groups)
    (ms : list groups) :
  finditer (RE_TP U) text = m :: ms -> py_int U (group m 1) = Ret 0 ->
  tp_extract U text = Raise IndexError.
Proof.
  intros E Z. unfold tp_extract.
  pose proof (@finditer_sound (RE_TP U) text) as T. rewrite E in *.
  destruct (T m (or_introl eq_refl)) as [w M].
  destruct (tp_token_cases W M) as (price & F & _).
  cbn [tp_loop]. unfold tp_step. rewrite Z. cbn [bind]. rewrite F.
  reflexivity.
Qed.



(** ** The matcher finds a match whenever there is one *)

Lemma star_loop_keeps (p : char -> bool) (k : str -> rmatch_result) (s : str) :
  k s <> None -> star_loop p k s <> None.
Proof.
  destruct s as [|c s]; simpl; [auto|]. intros K.
  destruct (p c); [|exact K].
  destruct (star_loop p k s); [discriminate | exact K].
Qed.

Lemma star_loop_complete (p : char -> bool) (k : str -> rmatch_result)
    (rest : str) :
  k rest <> None ->
  forall w, forallb p w = true -> star_loop p k (w ++ rest) <> None.
Proof.
  intros K. induction w as [|c w IH]; intros F.
  - apply star_loop_keeps, K.
  - simpl in F. apply andb_true_iff in F. destruct F as [Fc F].
    simpl. rewrite Fc. specialize (IH F).
    destruct (star_loop p k (w ++ rest)); [discriminate | contradiction].
Qed.

Lemma rmatch_complete (r : regex) :
  forall w g g' rest k,
    matches r w g g' -> k rest g' <> None ->
    rmatch r (w ++ rest) g k <> None.
Proof.
  induction r as [|p|r1 IH1 r2 IH2|r1 IH1 r2 IH2|p|i r IH];
    simpl; intros w g g' rest k M K.
  - destruct M as [-> ->]. exact K.
  - destruct M as (c & -> & Hc & ->). simpl. rewrite Hc. exact K.
  - destruct M as (w1 & w2 & g1 & -> & M1 & M2).
    rewrite <- app_assoc. apply (IH1 _ _ g1); [exact M1|].
    apply (IH2 _ _ g'); assumption.
  - destruct M as [M|M].
    + specialize (IH1 _ _ _ rest k M K).
      destruct (rmatch r1 (w ++ rest) g k); [discriminate | contradiction].
    + destruct (rmatch r1 (w ++ rest) g k); [discriminate|].
      apply (IH2 _ _ g'); assumption.
  - destruct M as [F ->]. apply star_loop_complete; assumption.
  - destruct M as (g1 & M & ->). apply (IH _ _ g1); [exact M|].
    rewrite firstn_consumed. exact K.
Qed.

Lemma search_complete (r : regex) (pre w post : str) (g : groups) :
  matches r w [] g -> found (search r (pre ++ w ++ post)) = true.
Proof.
  intros M. induction pre as [|c pre IH].
  - assert (A : match_at r (w ++ post) <> None).
    { unfold match_at. eapply rmatch_complete; [exact M | discriminate]. }
    simpl. destruct (w ++ post) as [|c s]; simpl;
      destruct (match_at r _); try reflexivity; contradiction.
  - simpl. destruct (match_at r (c :: pre ++ w ++ post)); [reflexivity|].
    exact IH.
Qed.

(** [search] succeeds exactly on the texts that hold a matching word. *)
Lemma search_found_iff (r : regex) (text : str) :
  found (search r text) = true <->
  exists pre w post g, text = pre ++ w ++ post /\ matches r w [] g.
Proof.
  split.
  - destruct (search r text) as [[g rest]|] eqn:E; [|discriminate].
    intros _. apply search_sound in E. destruct E as (pre & w & E & M).
    exists pre, w, rest, g. auto.
  - intros (pre & w & post & g & -> & M). eapply search_complete, M.
Qed.

(** ** Literals and phrases *)

Lemma lit_ci_matches (p : str) :
  forall w g g',
    matches (rseq (map (fun c => Chr (ci c)) p)) w g g' <->
    map re_lower w = map re_lower p /\ g' = g.
Proof.
  induction p as [|c p IH]; intros w g g'; simpl.
  - split.
    + intros [-> ->]. auto.
    + intros [E ->]. destruct w; [auto | discriminate].
  - split.
    + intros (w1 & w2 & g1 & -> & (x & -> & Hx & ->) & M).
      apply IH in M. destruct M as [E ->].
      unfold ci in Hx. apply Z.eqb_eq in Hx. simpl. rewrite Hx, E. auto.
    + intros [E ->]. destruct w as [|x w]; [discriminate|].
      simpl in E. inversion E as [[Hx Hw]].
      exists [x], w, g. repeat split.
      * exists x. repeat split. unfold ci. apply Z.eqb_eq. exact Hx.
      * apply IH. auto.
Qed.

Lemma folds_to_matches (p : string) (w : str) (g g' : groups) :
  matches (lit_ci p) w g g' <-> folds_to p w /\ g' = g.
Proof. apply lit_ci_matches. Qed.

Lemma plus_matches_iff (p : char -> bool) (w : str) (g g' : groups) :
  matches (plus p) w g g' <-> w <> [] /\ forallb p w = true /\ g' = g.
Proof.
  split; [apply plus_matches|].
  intros (N & F & ->). destruct w as [|c w]; [congruence|].
  simpl in F. apply andb_true_iff in F. destruct F as [Fc F].
  exists [c], w, g. split; [reflexivity|]. split.
  - exists c. auto.
  - simpl. auto.
Qed.

Lemma spaced_matches (a b : string) (w : str) (g g' : groups) :
  matches (rseq [lit_ci a; plus is_space; lit_ci b]) w g g'
  <-> spaced a b w /\ g' = g.
Proof.
  unfold rseq. cbn [fold_right matches]. split.
  - intros (x & t & g1 & -> & Mx & sp & u & g2 & -> & Ms & y & e & g3 & ->
            & My & -> & ->).
    apply folds_to_matches in Mx. destruct Mx as [Fx ->].
    apply plus_matches in Ms. destruct Ms as (N & S & ->).
    apply folds_to_matches in My. destruct My as [Fy ->].
    split; [|reflexivity]. exists x, sp, y. rewrite app_nil_r. auto.
  - intros [(x & sp & y & -> & Fx & N & S & Fy) ->].
    exists x, (sp ++ y), g. split; [reflexivity|].
    split; [apply folds_to_matches; auto|].
    exists sp, y, g. split; [reflexivity|].
    split; [apply plus_matches_iff; auto|].
    exists y, [], g. rewrite app_nil_r. split; [reflexivity|].
    split; [apply folds_to_matches; auto | auto].
Qed.

Lemma new_signal_matches (w : str) (g : groups) :
  matches RE_NEW_SIGNAL w [] g <-> accepted_phrase w /\ g = [].
Proof.
  unfold RE_NEW_SIGNAL, accepted_phrase. cbn [matches].
  rewrite !folds_to_matches, spaced_matches.
  split.
  - intros [[F ->] | [[F ->] | [M | [S ->]]]]; try tauto.
    unfold rseq in M. cbn [fold_right matches] in M.
    destruct M as (x & t & g1 & -> & [Mx|Mx] & sp & u & g2 & -> & Ms
                   & y & e & g3 & -> & My & -> & ->);
      apply folds_to_matches in Mx; destruct Mx as [Fx ->];
      apply plus_matches in Ms; destruct Ms as (N & S & ->);
      apply folds_to_matches in My; destruct My as [Fy ->];
      (split; [|reflexivity]); rewrite app_nil_r.
    + right. right. left. exists x, sp, y. auto.
    + right. right. right. left. exists x, sp, y. auto.
  - intros [[F | [F | [S | [S | S]]]] ->]; try tauto.
    + right. right. left.
      destruct S as (x & sp & y & -> & Fx & N & S & Fy).
      unfold rseq. cbn [fold_right matches].
      exists x, (sp ++ y), []. split; [reflexivity|].
      split; [left; apply folds_to_matches; auto|].
      exists sp, y, []. split; [reflexivity|].
      split; [apply plus_matches_iff; auto|].
      exists y, [], []. rewrite app_nil_r. split; [reflexivity|].
      split; [apply folds_to_matches; auto | auto].
    + right. right. left.
      destruct S as (x & sp & y & -> & Fx & N & S & Fy).
      unfold rseq. cbn [fold_right matches].
      exists x, (sp ++ y), []. split; [reflexivity|].
      split; [right; apply folds_to_matches; auto|].
      exists sp, y, []. split; [reflexivity|].
      split; [apply plus_matches_iff; auto|].
      exists y, [], []. rewrite app_nil_r. split; [reflexivity|].
      split; [apply folds_to_matches; auto | auto].
Qed.

(** ** Further properties of [parse_signal] *)

(** X1: a text that holds none of the new-signal phrasings, up to case,
    is rejected with the absent result, whatever else it holds. *)
Theorem no_accepted_phrase_rejected (U : ucd) (text quote : str) :
  (forall pre w post, text = pre ++ w ++ post -> ~ accepted_phrase w) ->
  parse_signal U text quote = Ret None.
Proof.
  intros H. unfold parse_signal.
  destruct (found (search RE_NEW_SIGNAL text)) eqn:E; [|reflexivity].
  exfalso. apply search_found_iff in E.
  destruct E as (pre & w & post & g & E & M).
  apply new_signal_matches in M. destruct M as [A _].
  exact (H pre w post E A).
Qed.

(** The body of Scenario A without its headings. *)
Lemma no_accepted_phrase_rejected_witness :
  parse_signal sample_ucd
    (py "Entry: 0.01740 | TP1: 0.01719 | DCA1: 0.01800 | Stop Loss: 0.01846")
    (py "USDT")
  = Ret None.
Proof.
  apply no_accepted_phrase_rejected.
  intros pre w post E A.
  assert (F : found (search RE_NEW_SIGNAL
                (py "Entry: 0.01740 | TP1: 0.01719 | DCA1: 0.01800 | Stop Loss: 0.01846"))
              = true).
  { apply search_found_iff. exists pre, w, post, [].
    split; [exact E | apply new_signal_matches; auto]. }
  vm_compute in F. discriminate.
Defined.

Lemma closing_phrase_found (w : str) :
  closing_phrase w ->
  (exists g, matches RE_CANCELLED w [] g)
  \/ (exists g, matches RE_HOURGLASS_CLOSED w [] g).
Proof.
  intros [F | [F | (sp & c & -> & S & F)]].
  - left. exists []. left. apply folds_to_matches. auto.
  - left. exists []. right. apply folds_to_matches. auto.
  - right. exists []. unfold RE_HOURGLASS_CLOSED, rseq.
    cbn [fold_right matches].
    exists [0x23F3], (sp ++ c), []. split; [reflexivity|]. split.
    { exists 0x23F3. repeat split. }
    exists sp, c, []. split; [reflexivity|]. split; [auto|].
    exists c, [], []. rewrite app_nil_r. split; [reflexivity|].
    split; [apply folds_to_matches; auto | auto].
Qed.

(** X2: a text that holds a cancellation or closure phrasing anywhere, up
    to case, is rejected with the absent result, also when a well-formed
    signal is around it. *)
Theorem closing_phrase_rejected (U : ucd) (text quote : str)
    (pre w post : str) :
  text = pre ++ w ++ post ->
  closing_phrase w ->
  parse_signal U text quote = Ret None.
Proof.
  intros -> C. unfold parse_signal.
  destruct (found (search RE_NEW_SIGNAL _)); simpl; [|reflexivity].
  destruct (closing_phrase_found C) as [[g M] | [g M]].
  - rewrite (@search_complete _ pre _ post _ M). reflexivity.
  - destruct (found (search RE_CANCELLED _)); [reflexivity|].
    rewrite (@search_complete _ pre _ post _ M). reflexivity.
Qed.

(** Scenario A, followed by a closure notice. *)
Lemma closing_phrase_rejected_witness :
  parse_signal sample_ucd
    (TEST_SIGNAL_WITH_DCA ++ py "Trade closed" ++ py " at break-even")
    (py "USDT")
  = Ret None.
Proof.
  apply (@closing_phrase_rejected sample_ucd _ (py "USDT")
           TEST_SIGNAL_WITH_DCA (py "Trade closed") (py " at break-even")).
  - reflexivity.
  - right. left. vm_compute. reflexivity.
Defined.

(** X3: the configured quote matters up to case only. Two quotes with the
    same upper-case form accept and reject the same texts, raise alike, and
    give Signals that differ in nothing but the symbol, which ends in the
    quote as it was passed. *)
Theorem quote_case_only_in_symbol (U : ucd) (text q1 q2 : str) :
  upper U q1 = upper U q2 ->
  parse_signal U text q2
  = match parse_signal U text q1 with
    | Ret (Some sig) => Ret (Some (with_symbol sig (base sig ++ q2)))
    | other => other
    end.
Proof.
  intros H. unfold parse_signal. rewrite <- H.
  destruct (found (search RE_NEW_SIGNAL text)); simpl; [|reflexivity].
  destruct (found (search RE_CANCELLED text)); [reflexivity|].
  destruct (found (search RE_HOURGLASS_CLOSED text)); [reflexivity|].
  destruct (search RE_SIDE_SYMBOL text) as [[m_side r1]|]; [|reflexivity].
  destruct (str_eqb _ _); simpl; [|reflexivity].
  destruct (search RE_ENTRY text) as [[m_entry r2]|]; [|reflexivity].
  destruct (py_float _) as [trig|]; simpl; [|reflexivity].
  destruct (tp_extract U text) as [tps|]; simpl; [|reflexivity].
  destruct (filter above_zero tps); [reflexivity|].
  destruct (dca_extract text) as [dcas|]; simpl; [|reflexivity].
  destruct (sl_extract text) as [sl|]; simpl; reflexivity.
Qed.

(** Scenario A with the quote in lower case. *)
Lemma quote_case_only_in_symbol_witness :
  parse_signal sample_ucd TEST_SIGNAL_WITH_DCA (py "usdt")
  = match parse_signal sample_ucd TEST_SIGNAL_WITH_DCA (py "USDT") with
    | Ret (Some sig) => Ret (Some (with_symbol sig (base sig ++ py "usdt")))
    | other => other
    end.
Proof.
  apply quote_case_only_in_symbol. vm_compute. reflexivity.
Defined.

(** X4: on success [dca_prices] holds at most one price, and that price is
    strictly positive. *)
Theorem dca_at_most_one_positive (U : ucd) (text quote : str) (sig : Signal) :
  parse_signal U text quote = Ret (Some sig) ->
  (length (dca_prices sig) <= 1)%nat
  /\ Forall strictly_positive (dca_prices sig).
Proof.
  intros H. apply parse_signal_success in H.
  destruct H as (m_side & r1 & m_entry & r2 & trig & tps & dcas & sl & H).
  destruct H as (_ & _ & _ & _ & _ & _ & _ & _ & _ & D & _ & ->).
  simpl. unfold dca_extract in D.
  destruct (search RE_DCA text) as [[m rest]|].
  - destruct (py_float _) as [p|]; simpl in D; [|discriminate].
    inversion D; subst dcas. destruct (above_zero p) eqn:P; simpl.
    + split; [lia|]. constructor; [|constructor]. apply positive_iff, P.
    + split; [lia | constructor].
  - inversion D; subst dcas. simpl. split; [lia | constructor].
Qed.

Lemma dca_at_most_one_positive_witness :
  (length (dca_prices (scenario_A_signal (firstn 500 TEST_SIGNAL_WITH_DCA)))
   <= 1)%nat
  /\ Forall strictly_positive
       (dca_prices (scenario_A_signal (firstn 500 TEST_SIGNAL_WITH_DCA))).
Proof.
  apply (@dca_at_most_one_positive sample_ucd TEST_SIGNAL_WITH_DCA (py "USDT")).
  vm_compute. reflexivity.
Defined.

(** X5: the shape of every Signal: the side is one of the two literals,
    the symbol is the base followed by the quote as configured, and [raw]
    is the prefix of the text of at most 500 characters. *)
Theorem signal_shape (U : ucd) (text quote : str) (sig : Signal) :
  parse_signal U text quote = Ret (Some sig) ->
  (side sig = py "sell" \/ side sig = py "buy")
  /\ symbol sig = base sig ++ quote
  /\ (length (raw sig) = Nat.min 500 (length text))
  /\ exists rest, text = raw sig ++ rest.
Proof.
  intros H. apply parse_signal_success in H.
  destruct H as (m_side & r1 & m_entry & r2 & trig & tps & dcas & sl & H).
  destruct H as (_ & _ & _ & _ & _ & _ & _ & _ & _ & _ & _ & ->).
  cbn [side symbol base raw]. split.
  - destruct (str_eqb _ _); auto.
  - split; [reflexivity|]. split; [apply length_firstn|].
    exists (skipn 500 text). symmetry. apply firstn_skipn.
Qed.

Lemma signal_shape_witness :
  (side (scenario_A_signal (firstn 500 TEST_SIGNAL_WITH_DCA)) = py "sell"
   \/ side (scenario_A_signal (firstn 500 TEST_SIGNAL_WITH_DCA)) = py "buy")
  /\ symbol (scenario_A_signal (firstn 500 TEST_SIGNAL_WITH_DCA))
     = base (scenario_A_signal (firstn 500 TEST_SIGNAL_WITH_DCA)) ++ py "USDT"
  /\ (length (raw (scenario_A_signal (firstn 500 TEST_SIGNAL_WITH_DCA)))
      = Nat.min 500 (length TEST_SIGNAL_WITH_DCA))
  /\ exists rest,
       TEST_SIGNAL_WITH_DCA
       = raw (scenario_A_signal (firstn 500 TEST_SIGNAL_WITH_DCA)) ++ rest.
Proof.
  apply (@signal_shape sample_ucd TEST_SIGNAL_WITH_DCA (py "USDT")).
  vm_compute. reflexivity.
Defined.


(** A take-profit label whose rank has 4301 digits. *)
Lemma long_rank_raises :
  parse_signal sample_ucd long_rank_text (py "USDT") = Raise ValueError
  /\ map (fun m => Z.of_nat (length (group m 1)))
         (finditer (RE_TP sample_ucd) long_rank_text) = [4301].
Proof. split; vm_compute; reflexivity. Qed.

(** ** The take-profit table *)



Lemma tp_step_token_eq (U : ucd) (tps : list float) (m : groups) :
  tp_step U tps m
  = (t <- tp_token U m ;; list_assign (grow tps (fst t)) (fst t - 1) (snd t)).
Proof.
  unfold tp_step, tp_token.
  destruct (py_int U (group m 1)); simpl; [|reflexivity].
  destruct (py_float _); reflexivity.
Qed.





(** The same text in figures: [0.15, 0.0, 0.3] before the filter. *)
Lemma tp_table_example :
  tp_extract sample_ucd (py "TP3: 0.3 | TP1: 0.1 | TP1 $0.15")
  = Ret [dec "0.15"; fzero; dec "0.3"].
Proof. vm_compute. reflexivity. Qed.

(** ** The digest *)

Lemma le_bytes_spec (k : nat) (x : Z) :
  length (MD5.le_bytes k x) = k
  /\ Forall (fun b => 0 <= b < 256) (MD5.le_bytes k x).
Proof.
  unfold MD5.le_bytes. split; [rewrite length_map; apply length_seq|].
  apply Forall_forall. intros b B. apply in_map_iff in B.
  destruct B as (i & <- & _).
  change 0xFF with (Z.ones 8). rewrite Z.land_ones by lia.
  apply Z.mod_pos_bound. reflexivity.
Qed.

Lemma digest_spec (msg : list Z) :
  length (MD5.digest msg) = 16%nat
  /\ Forall (fun b => 0 <= b < 256) (MD5.digest msg).
Proof.
  unfold MD5.digest.
  destruct (MD5.blocks _ _ _) as [[[a b] c] d].
  destruct (le_bytes_spec 4 a) as [La Fa], (le_bytes_spec 4 b) as [Lb Fb],
    (le_bytes_spec 4 c) as [Lc Fc], (le_bytes_spec 4 d) as [Ld Fd].
  split.
  - rewrite !length_app, La, Lb, Lc, Ld. reflexivity.
  - repeat (apply Forall_app; split); assumption.
Qed.

Lemma hex_digit_char (x : Z) :
  0 <= x < 16 -> hex_char (MD5.hex_digit x) = true.
Proof.
  intros R. unfold hex_char, MD5.hex_digit, in_range.
  destruct (Z.ltb_spec x 10); apply orb_true_iff; [left | right];
    apply andb_true_iff; split; apply Z.leb_le; lia.
Qed.

Lemma hexdigest_spec (bs : list Z) :
  Forall (fun b => 0 <= b < 256) bs ->
  length (flat_map
            (fun b => [MD5.hex_digit (b / 16); MD5.hex_digit (b mod 16)]) bs)
  = (2 * length bs)%nat
  /\ forallb hex_char
       (flat_map
          (fun b => [MD5.hex_digit (b / 16); MD5.hex_digit (b mod 16)]) bs)
     = true.
Proof.
  induction 1 as [|b bs B _ [IL IF]]; [auto|].
  cbn [flat_map app length forallb]. rewrite IL, IF.
  rewrite !hex_digit_char.
  - split; [lia | reflexivity].
  - apply Z.mod_pos_bound. lia.
  - split; [apply Z.div_pos; lia | apply Z.div_lt_upper_bound; lia].
Qed.

(** X8: whenever [signal_hash] returns, the fingerprint is a string of 32
    lower-case hexadecimal digits. *)
Theorem signal_hash_hex (sig : Signal) (h : str) :
  signal_hash sig = Ret h ->
  length h = 32%nat /\ forallb hex_char h = true.
Proof.
  unfold signal_hash. destruct (utf8_encode (hash_core sig)) as [bs|];
    simpl; [|discriminate].
  intros E. inversion E; subst h. unfold MD5.hexdigest.
  destruct (digest_spec bs) as [L F].
  destruct (hexdigest_spec F) as [HL HF]. rewrite HL, L. auto.
Qed.

Lemma signal_hash_hex_witness :
  length (py "353a89e0c261f35f72e8dd19436caf0e") = 32%nat
  /\ forallb hex_char (py "353a89e0c261f35f72e8dd19436caf0e") = true.
Proof.
  apply (@signal_hash_hex (scenario_A_signal [])).
  vm_compute. reflexivity.
Defined.

(** ** Further properties of [fetch_after] *)

(** X9: [fetch_after] returns the body of the first reply, among the
    first three, that is a response with a status other than 429, 4xx and
    5xx and a body that decodes, provided that the replies before it are
    quiet: transport failures, 4xx or 5xx responses other than 429, or
    other responses than 429 whose body the decoder returns or refuses.
    When all three are quiet and none is good, it returns the empty
    batch. *)
Theorem fetch_after_first_ok (srv : remote) :
  quiet_until_ok [srv 0%nat; srv 1%nat; srv 2%nat] = true ->
  fst (fetch_after srv) = Ret (first_ok [srv 0%nat; srv 1%nat; srv 2%nat]).
Proof.
  intros Q. unfold fetch_after. rewrite fetch_loop_result; [reflexivity|].
  exact Q.
Qed.

(** A time-out, then a 200 response that is no JSON, then a batch of one
    message. *)
Lemma fetch_after_first_ok_witness :
  fst (fetch_after
         (fun i => match i with
                   | O => inl Timeout
                   | S O => inr {| status_code := 200; json := NotJson |}
                   | _ => inr {| status_code := 200;
                                 json := Decoded
                                   (Batch [message_with_id (py "7")]) |}
                   end))
  = Ret (Batch [message_with_id (py "7")]).
Proof.
  apply (@fetch_after_first_ok
           (fun i => match i with
                     | O => inl Timeout
                     | S O => inr {| status_code := 200; json := NotJson |}
                     | _ => inr {| status_code := 200;
                                   json := Decoded
                                     (Batch [message_with_id (py "7")]) |}
                     end)).
  reflexivity.
Defined.

Lemma do_sleep_counts (d : float) (w : world) :
  gets (do_sleep d w) = gets w /\ sleeps (do_sleep d w) = S (sleeps w).
Proof.
  unfold gets, sleeps, do_sleep. cbn [log].
  rewrite !filter_app, !length_app. simpl. lia.
Qed.

Lemma try_block_counts (srv : remote) (w : world) :
  gets (snd (try_block srv w)) = S (gets w)
  /\ (sleeps (snd (try_block srv w)) <= S (sleeps w))%nat
  /\ (match fst (try_block srv w) with
      | Continue => True
      | _ => sleeps (snd (try_block srv w)) = sleeps w
      end).
Proof.
  assert (G : forall w0 : world,
            gets {| requests_made := S (requests_made w0);
                    log := log w0 ++ [Get] |} = S (gets w0)
            /\ sleeps {| requests_made := S (requests_made w0);
                         log := log w0 ++ [Get] |} = sleeps w0).
  { intros w0. unfold gets, sleeps. cbn [log].
    rewrite !filter_app, !length_app. simpl. lia. }
  destruct (G w) as [G1 G2].
  try_block_cases srv w;
    rewrite ?(proj1 (do_sleep_counts _ _)), ?(proj2 (do_sleep_counts _ _)),
      ?G1, ?G2; repeat split; lia.
Qed.

Lemma fetch_loop_counts (srv : remote) (attempts : list Z) :
  forall w,
    (requests_made (snd (fetch_loop srv attempts w))
     <= requests_made w + length attempts)%nat
    /\ (requests_made w + Nat.min 1 (length attempts)
        <= requests_made (snd (fetch_loop srv attempts w)))%nat
    /\ (gets (snd (fetch_loop srv attempts w)) + requests_made w
        = gets w + requests_made (snd (fetch_loop srv attempts w)))%nat
    /\ (sleeps (snd (fetch_loop srv attempts w))
        <= sleeps w + length attempts)%nat.
Proof.
  induction attempts as [|a rest IH]; intros w.
  - simpl. repeat split; lia.
  - cbn [fetch_loop length].
    pose proof (try_block_requests srv w) as R.
    destruct (try_block_counts srv w) as (G & S1 & S2).
    destruct (try_block srv w) as [t w1]. simpl in R, G, S1, S2.
    destruct t as [| p | e | e].
    + destruct (IH w1) as (A & B & C & D).
      repeat split; lia.
    + simpl. repeat split; lia.
    + destruct (a <? 2).
      * destruct (IH (do_sleep (float_of_nat 3) w1)) as (A & B & C & D).
        destruct (do_sleep_counts (float_of_nat 3) w1) as [G' S'].
        simpl in A, B, C. rewrite G' in C. rewrite S', S2 in D.
        repeat split; lia.
      * destruct (IH w1) as (A & B & C & D).
        repeat split; lia.
    + simpl. repeat split; lia.
Qed.

(** X10: one call makes at least one request and at most three, one per
    [Get] of its log, and sleeps at most three times. *)
Theorem fetch_after_bounded (srv : remote) :
  (1 <= requests_made (snd (fetch_after srv)) <= 3)%nat
  /\ gets (snd (fetch_after srv)) = requests_made (snd (fetch_after srv))
  /\ (sleeps (snd (fetch_after srv)) <= 3)%nat.
Proof.
  unfold fetch_after.
  destruct (fetch_loop_counts srv [0; 1; 2] new_world) as (A & B & C & D).
  set (w' := snd (fetch_loop srv [0; 1; 2] new_world)) in *. clearbody w'.
  change (requests_made new_world) with 0%nat in *.
  change (gets new_world) with 0%nat in C.
  change (sleeps new_world) with 0%nat in D.
  change (length [0; 1; 2]) with 3%nat in *.
  repeat split; lia.
Qed.

Lemma try_block_rate_limited (srv : remote) (w : world) (d : float) :
  rate_limited (srv (requests_made w)) d ->
  try_block srv w
  = (Continue,
     do_sleep d
       {| requests_made := S (requests_made w); log := log w ++ [Get] |}).
Proof.
  intros (r & p & E & S & J & W & T & _).
  unfold try_block, do_get, with_json. rewrite E, S, J, W, T. reflexivity.
Qed.

(** X11: a rate-limit response whose body is an object with a wait that
    [float] converts and [time.sleep] takes costs one attempt and a sleep
    of that wait plus one second (five plus one when the object names
    none), also on the final attempt: three such responses give three
    requests, three sleeps and the empty batch. *)
Theorem fetch_after_rate_limited (srv : remote) (d0 d1 d2 : float) :
  rate_limited (srv 0%nat) d0 ->
  rate_limited (srv 1%nat) d1 ->
  rate_limited (srv 2%nat) d2 ->
  fetch_after srv
  = (Ret (Batch []),
     {| requests_made := 3;
        log := [Get; Sleep d0; Get; Sleep d1; Get; Sleep d2] |}).
Proof.
  intros R0 R1 R2. unfold fetch_after. cbn [fetch_loop].
  rewrite (@try_block_rate_limited srv new_world d0 R0).
  erewrite try_block_rate_limited; [|exact R1].
  erewrite try_block_rate_limited; [|exact R2].
  reflexivity.
Qed.

(** Three rate-limit responses, the second of which suggests 2.5 seconds:
    the sleeps are 6.0, 3.5 and 6.0 seconds. *)
Lemma fetch_after_rate_limited_witness :
  fetch_after
    (fun i => if Nat.eqb i 1 then too_many_requests (JFloat (dec "2.5"))
              else inr {| status_code := 429;
                          json := Decoded (Dict None true) |})
  = (Ret (Batch []),
     {| requests_made := 3;
        log := [Get; Sleep (dec "6"); Get; Sleep (dec "3.5");
                Get; Sleep (dec "6")] |}).
Proof.
  apply (@fetch_after_rate_limited
           (fun i => if Nat.eqb i 1 then too_many_requests (JFloat (dec "2.5"))
                     else inr {| status_code := 429;
                                 json := Decoded (Dict None true) |})
           (dec "6") (dec "3.5") (dec "6")).
  - eexists _, _. repeat split; vm_compute; reflexivity.
  - eexists _, _. repeat split; vm_compute; reflexivity.
  - eexists _, _. repeat split; vm_compute; reflexivity.
Defined.

(** X12: under the condition of X9, when the first good reply is an array
    (or there is none), [get_latest_message_id] returns the [id] of the
    first message of that array, and the absent value when the array is
    empty or no reply is good; it asks and sleeps as [fetch_after] does. *)
Theorem get_latest_message_id_first_ok (srv : remote)
    (msgs : list RawMessage) :
  quiet_until_ok [srv 0%nat; srv 1%nat; srv 2%nat] = true ->
  first_ok [srv 0%nat; srv 1%nat; srv 2%nat] = Batch msgs ->
  fst (get_latest_message_id srv)
  = Ret (match msgs with
         | m :: _ => msg_id m
         | [] => None
         end)
  /\ snd (get_latest_message_id srv) = snd (fetch_after srv).
Proof.
  intros Q B. unfold get_latest_message_id.
  assert (F : fst (fetch_after srv) = Ret (Batch msgs)).
  { rewrite <- B. unfold fetch_after. rewrite fetch_loop_result; [reflexivity|].
    exact Q. }
  destruct (fetch_after srv) as [res w]. cbn [fst] in F. subst res.
  split; [|reflexivity]. destruct msgs; reflexivity.
Qed.

(** A 503 response, then a batch of two messages. *)
Lemma get_latest_message_id_first_ok_witness :
  fst (get_latest_message_id
         (fun i => match i with
                   | O => inr {| status_code := 503; json := NotJson |}
                   | _ => inr {| status_code := 200;
                                 json := Decoded
                                   (Batch [message_with_id (py "42");
                                           message_with_id (py "41")]) |}
                   end))
  = Ret (Some (py "42")).
Proof.
  apply (@get_latest_message_id_first_ok
           (fun i => match i with
                     | O => inr {| status_code := 503; json := NotJson |}
                     | _ => inr {| status_code := 200;
                                   json := Decoded
                                     (Batch [message_with_id (py "42");
                                             message_with_id (py "41")]) |}
                     end)
           [message_with_id (py "42"); message_with_id (py "41")]).
  - reflexivity.
  - reflexivity.
Defined.

(** X19: a rate-limit response whose wait cannot be had ends the call with
    the exception, after that one request and without a sleep: [float]
    raises on a [retry_after] that is [null] ([TypeError]) or a text that
    is no number ([ValueError]), an array has no [get]
    ([AttributeError]), and [time.sleep] refuses a wait that is negative
    or [nan] ([ValueError]) or too long ([OverflowError]). *)
Theorem fetch_after_rate_limit_raises (srv : remote) (r : response)
    (p : payload) :
  srv 0%nat = inr r -> status_code r = 429 -> json r = Decoded p ->
  (forall e, rate_limit_wait p = Raise e ->
     fetch_after srv = (Raise e, {| requests_made := 1; log := [Get] |}))
  /\ (forall d e, rate_limit_wait p = Ret d -> time_sleep_raises d = Some e ->
        fetch_after srv = (Raise e, {| requests_made := 1; log := [Get] |})).
Proof.
  intros E S J. split.
  - intros e W. unfold fetch_after. cbn [fetch_loop].
    unfold try_block, do_get, with_json.
    change (srv (requests_made new_world)) with (srv 0%nat).
    rewrite E, S, J, W. reflexivity.
  - intros d e W T. unfold fetch_after. cbn [fetch_loop].
    unfold try_block, do_get, with_json.
    change (srv (requests_made new_world)) with (srv 0%nat).
    rewrite E, S, J, W, T. reflexivity.
Qed.

(** A [retry_after] of [null], and one of -2 seconds. *)
Lemma fetch_after_rate_limit_raises_witness :
  fetch_after (fun _ => too_many_requests JNull)
  = (Raise TypeError, {| requests_made := 1; log := [Get] |})
  /\ fetch_after (fun _ => too_many_requests (JInt (-2)))
     = (Raise ValueError, {| requests_made := 1; log := [Get] |}).
Proof.
  split.
  - apply (proj1 (@fetch_after_rate_limit_raises
                    (fun _ => too_many_requests JNull)
                    {| status_code := 429;
                       json := Decoded (Dict (Some JNull) false) |}
                    (Dict (Some JNull) false) eq_refl eq_refl eq_refl)).
    reflexivity.
  - apply (proj2 (@fetch_after_rate_limit_raises
                    (fun _ => too_many_requests (JInt (-2)))
                    {| status_code := 429;
                       json := Decoded (Dict (Some (JInt (-2))) false) |}
                    (Dict (Some (JInt (-2))) false) eq_refl eq_refl eq_refl)
             (SFopp (dec "1"))).
    + vm_compute. reflexivity.
    + vm_compute. reflexivity.
Defined.

Lemma try_block_not_json (srv : remote) (w : world) (r : response) :
  srv (requests_made w) = inr r -> json r = NotJson ->
  exists e,
    try_block srv w
    = (Caught e,
       {| requests_made := S (requests_made w); log := log w ++ [Get] |}).
Proof.
  intros E J. unfold try_block, do_get, with_json. rewrite E, J.
  destruct (status_code r =? 429); [eexists; reflexivity|].
  destruct (raise_for_status r); eexists; reflexivity.
Qed.

(** X20: a response whose body is no JSON is handled as a transport
    failure whatever its status, 429 and 200 included: three of them give
    three requests, two sleeps of 3 seconds and the empty batch. *)
Theorem fetch_after_not_json (srv : remote) (r0 r1 r2 : response) :
  srv 0%nat = inr r0 -> srv 1%nat = inr r1 -> srv 2%nat = inr r2 ->
  json r0 = NotJson -> json r1 = NotJson -> json r2 = NotJson ->
  fetch_after srv
  = (Ret (Batch []),
     {| requests_made := 3;
        log := [Get; Sleep (float_of_nat 3); Get;
                Sleep (float_of_nat 3); Get] |}).
Proof.
  intros E0 E1 E2 J0 J1 J2. unfold fetch_after. cbn [fetch_loop].
  destruct (@try_block_not_json srv new_world r0 E0 J0) as [e0 ->].
  change (0 <? 2) with true. cbv iota.
  edestruct try_block_not_json as [e1 ->]; [exact E1 | exact J1 |].
  change (1 <? 2) with true. cbv iota.
  edestruct try_block_not_json as [e2 ->]; [exact E2 | exact J2 |].
  reflexivity.
Qed.

(** A 429, a 200 and a 502 response, none with a JSON body. *)
Lemma fetch_after_not_json_witness :
  fetch_after
    (fun i => inr {| status_code := match i with
                                    | O => 429
                                    | S O => 200
                                    | _ => 502
                                    end;
                     json := NotJson |})
  = (Ret (Batch []),
     {| requests_made := 3;
        log := [Get; Sleep (dec "3"); Get; Sleep (dec "3"); Get] |}).
Proof.
  apply (@fetch_after_not_json
           (fun i => inr {| status_code := match i with
                                           | O => 429
                                           | S O => 200
                                           | _ => 502
                                           end;
                            json := NotJson |})
           {| status_code := 429; json := NotJson |}
           {| status_code := 200; json := NotJson |}
           {| status_code := 502; json := NotJson |});
    reflexivity.
Defined.

(** ** Further properties of [message_timestamp_unix] *)

Lemma py_int_raises (U : ucd) (s : str) (e : exn) :
  py_int U s = Raise e -> e = ValueError.
Proof.
  unfold py_int.
  assert (B : forall t e0,
            match int_digits 0 true t with
            | Some n =>
              if digit_count t <=? max_str_digits
              then Ret n else Raise ValueError
            | None => Raise ValueError
            end = Raise e0 -> e0 = ValueError).
  { intros t e0. destruct (int_digits 0 true t);
      [destruct (digit_count t <=? max_str_digits)|]; congruence. }
  destruct (c_strip (map (int_ascii U) s)) as [|c t]; [apply B|].
  destruct (c =? 43); [apply B|].
  destruct (c =? 45); [|apply B].
  destruct (int_digits 0 true t) as [n|] eqn:D;
    [destruct (digit_count t <=? max_str_digits)|]; cbn [bind]; congruence.
Qed.

(** X13: when the identifier is absent, is no integer, or is zero, the
    result is that of the fall-back on the [timestamp] field, and nothing
    is raised; the fall-back gives the absent result for an absent or empty
    field. *)
Theorem timestamp_fallback_used (U : ucd) (iso : str -> option float)
    (msg : RawMessage) :
  (forall s n, msg_id msg = Some s -> py_int U s = Ret n -> n = 0) ->
  message_timestamp_unix U iso msg = Ret (timestamp_fallback iso msg)
  /\ (timestamp msg = None \/ timestamp msg = Some [] ->
      message_timestamp_unix U iso msg = Ret None).
Proof.
  intros H.
  assert (R : message_timestamp_unix U iso msg
              = Ret (timestamp_fallback iso msg)).
  { unfold message_timestamp_unix, snowflake_time.
    destruct (msg_id msg) as [s|]; [|reflexivity].
    destruct (py_int U s) as [n|e] eqn:P.
    - assert (Z : n = 0) by (apply (H s); auto). subst n. reflexivity.
    - apply py_int_raises in P. subst e. reflexivity. }
  split; [exact R|]. intros T. rewrite R. unfold timestamp_fallback.
  destruct T as [-> | ->]; reflexivity.
Qed.

(** An identifier that is no number, with a time that [iso] reads. *)
Lemma timestamp_fallback_used_witness :
  message_timestamp_unix sample_ucd (fun _ => Some (dec "1704067200"))
    {| msg_id := Some (py "pending"); content := None; embeds := Missing;
       timestamp := Some (py "2024-01-01T00:00:00Z") |}
  = Ret (Some (dec "1704067200")).
Proof.
  apply (proj1 (@timestamp_fallback_used sample_ucd
                  (fun _ => Some (dec "1704067200"))
                  {| msg_id := Some (py "pending"); content := None;
                     embeds := Missing;
                     timestamp := Some (py "2024-01-01T00:00:00Z") |}
                  ltac:(intros s n E P; inversion E; subst s;
                        vm_compute in P; discriminate))).
Defined.

Lemma int_truediv_float_raises (i : Z) (y : float) (e : exn) :
  int_truediv_float i y = Raise e ->
  e = OverflowError /\ float_of_int i = Raise OverflowError.
Proof.
  unfold int_truediv_float.
  destruct (float_of_int i) as [x|e'] eqn:F; cbn [bind]; [discriminate|].
  intros H. inversion H; subst e'.
  assert (O : e = OverflowError).
  { unfold float_of_int in F.
    destruct (binary_normalize prec emax i 0 false); congruence. }
  subst e. auto.
Qed.

(** X14: the only exception that [message_timestamp_unix] lets out is
    [OverflowError], and only for an identifier that parses as a non-zero
    integer whose millisecond count lies outside the range that a double
    holds exactly. *)
Theorem timestamp_raises_only_overflow (U : ucd) (iso : str -> option float)
    (msg : RawMessage) (e : exn) :
  message_timestamp_unix U iso msg = Raise e ->
  e = OverflowError
  /\ exists s n,
       msg_id msg = Some s /\ py_int U s = Ret n /\ n <> 0
       /\ ~ (0 < Z.shiftr n 22 + discord_epoch < 2 ^ 53).
Proof.
  unfold message_timestamp_unix.
  destruct (snowflake_time U msg) as [[x|]|e'] eqn:S; try discriminate.
  destruct (caught_by_pass e') eqn:C; [discriminate|].
  intros H. inversion H; subst e'. clear H.
  unfold snowflake_time in S.
  destruct (msg_id msg) as [s|]; [|discriminate].
  destruct (py_int U s) as [n|e'] eqn:P; cbn [bind] in S.
  - destruct (Z.eqb_spec n 0) as [Z|NZ]; [discriminate|].
    destruct (int_truediv_float (Z.shiftr n 22 + discord_epoch) thousand)
      as [x|e'] eqn:D; cbn [bind] in S; [discriminate|].
    inversion S; subst e'.
    apply int_truediv_float_raises in D. destruct D as [-> F].
    split; [reflexivity|]. exists s, n. repeat split; auto.
    intros B. destruct (float_of_int_exact B) as (m & ex & F' & _).
    congruence.
  - inversion S; subst e'. apply py_int_raises in P. subst e. discriminate.
Qed.

Lemma timestamp_raises_only_overflow_witness :
  OverflowError = OverflowError
  /\ exists s n,
       msg_id (message_with_id (49 :: repeat 48 400)) = Some s
       /\ py_int sample_ucd s = Ret n /\ n <> 0
       /\ ~ (0 < Z.shiftr n 22 + discord_epoch < 2 ^ 53).
Proof.
  apply (@timestamp_raises_only_overflow sample_ucd (fun _ => None)
           (message_with_id (49 :: repeat 48 400)) OverflowError).
  vm_compute. reflexivity.
Defined.

(** ** Further properties of [extract_text] *)

Lemma lstrip_head (s : str) :
  match lstrip s with [] => True | c :: _ => is_space c = false end.
Proof.
  induction s as [|c s IH]; simpl; [exact I|].
  destruct (is_space c) eqn:E; [exact IH | exact E].
Qed.

Lemma lstrip_suffix (s : str) : exists pre, s = pre ++ lstrip s.
Proof.
  induction s as [|c s [pre IH]]; simpl; [exists []; reflexivity|].
  destruct (is_space c).
  - exists (c :: pre). simpl. rewrite <- IH. reflexivity.
  - exists []. reflexivity.
Qed.

Lemma strip_trimmed (s : str) :
  match strip s with [] => True | c :: _ => is_space c = false end
  /\ match rev (strip s) with [] => True | c :: _ => is_space c = false end.
Proof.
  unfold strip. split.
  - destruct (lstrip_suffix (rev (lstrip s))) as [pre E].
    pose proof (lstrip_head s) as H.
    apply (f_equal (@rev char)) in E.
    rewrite rev_involutive, rev_app_distr in E.
    destruct (rev (lstrip (rev (lstrip s)))) as [|c t]; [exact I|].
    rewrite E in H. exact H.
  - rewrite rev_involutive. apply lstrip_head.
Qed.

(** X15: the text that [extract_text] returns neither starts nor ends with
    white space, whatever the message and the entity decoder; and it
    returns a text for every message none of whose containers holds
    [null]. *)
Theorem extract_text_trimmed (U : ucd) (unescape : str -> str)
    (msg : RawMessage) :
  match extract_text U unescape msg with
  | Ret [] | Raise _ => True
  | Ret (c :: _) => is_space c = false
  end
  /\ match extract_text U unescape msg with
     | Ret t => match rev t with
                | [] => True
                | c :: _ => is_space c = false
                end
     | Raise _ => True
     end
  /\ (no_null_container msg = true ->
      exists t, extract_text U unescape msg = Ret t).
Proof.
  split; [|split; [|apply extract_text_ok]];
    unfold extract_text, clean_up;
    (destruct (joined_text msg) as [t|e]; cbn [bind]; [|exact I]);
    apply strip_trimmed.
Qed.

(** The message with three embeds. *)
Lemma extract_text_trimmed_witness :
  exists t, extract_text sample_ucd (fun t => t) full_message = Ret t.
Proof.
  apply (proj2 (proj2 (@extract_text_trimmed sample_ucd (fun t => t)
                         full_message))).
  reflexivity.
Defined.

(** X21: [extract_text] raises exactly on a message one of whose
    containers holds [null]: [TypeError] where the loops meet the [null]
    of [embeds] or [fields], [AttributeError] where [get] meets the [null]
    of [footer]. *)
Theorem extract_text_raises_iff (U : ucd) (unescape : str -> str)
    (msg : RawMessage) :
  ((exists e, extract_text U unescape msg = Raise e)
   <-> no_null_container msg = false)
  /\ (forall e, extract_text U unescape msg = Raise e ->
        e = TypeError \/ e = AttributeError).
Proof.
  assert (R : no_null_container msg = false ->
              extract_text U unescape msg = Raise TypeError
              \/ extract_text U unescape msg = Raise AttributeError).
  { unfold no_null_container, extract_text, joined_text, collect_parts,
      iterable.
    destruct (embeds msg) as [| |es]; cbn [is_null negb andb items forallb bind];
      [discriminate | auto |].
    intros F.
    destruct (embeds_loop_raises es F (append_if [] (content msg)))
      as [-> | ->]; auto. }
  destruct (no_null_container msg) eqn:N.
  - destruct (extract_text_ok U unescape msg N) as [t T].
    split; [split; [intros [e E]; congruence | discriminate]|].
    intros e E. congruence.
  - split; [split; [reflexivity|]|].
    + intros _. destruct (R eq_refl) as [E | E]; eauto.
    + intros e E. destruct (R eq_refl) as [E' | E']; rewrite E' in E;
        inversion E; auto.
Qed.

(** The message whose footer holds [null]. *)
Lemma extract_text_raises_iff_witness :
  exists e, extract_text sample_ucd (fun t => t) null_footer_message = Raise e.
Proof.
  apply (proj1 (@extract_text_raises_iff sample_ucd (fun t => t)
                  null_footer_message)).
  reflexivity.
Defined.

(** ** The rank 0 *)

(** X16: a text that passes the gates, names the configured quote and an
    entry price, and whose first TP label has rank 0 makes [parse_signal]
    raise [IndexError], whatever else follows. *)
Theorem rank_0_first_raises (U : ucd) (W : ucd_wf U) (text quote : str)
    (m_side m_entry m : groups) (r1 r2 : str) (ms : list groups) :
  found (search RE_NEW_SIGNAL text) = true ->
  found (search RE_CANCELLED text) = false ->
  found (search RE_HOURGLASS_CLOSED text) = false ->
  search RE_SIDE_SYMBOL text = Some (m_side, r1) ->
  upper U (group m_side 3) = upper U quote ->
  search RE_ENTRY text = Some (m_entry, r2) ->
  finditer (RE_TP U) text = m :: ms ->
  py_int U (group m 1) = Ret 0 ->
  parse_signal U text quote = Raise IndexError.
Proof.
  intros N C H S Q E T Z. unfold parse_signal.
  rewrite N, C, H, S. apply str_eqb_eq in Q. rewrite Q. simpl. rewrite E.
  destruct (entry_float _ E) as (n & d & ->). simpl.
  rewrite (tp_extract_rank_0 W text T Z). reflexivity.
Qed.

(** A rank 0 in front of two well-formed levels. *)
Lemma rank_0_first_raises_witness :
  parse_signal sample_ucd
    (py "LONG SIGNAL - BTC/USDT | Entry: 42500.00 | TP0: 42600 | TP1: 42800.00 | TP2: 43100.00")
    (py "USDT")
  = Raise IndexError.
Proof.
  eapply (@rank_0_first_raises sample_ucd sample_ucd_wf).
  - vm_compute. reflexivity.
  - vm_compute. reflexivity.
  - vm_compute. reflexivity.
  - vm_compute. reflexivity.
  - vm_compute. reflexivity.
  - vm_compute. reflexivity.
  - vm_compute. reflexivity.
  - vm_compute. reflexivity.
Defined.

Lemma set_nth_last (l : list float) (p : float) :
  l <> [] -> set_nth l (length l - 1) p = removelast l ++ [p].
Proof.
  induction l as [|x l IH]; intros N; [congruence|].
  destruct l as [|y l]; [reflexivity|].
  cbn [length] in *. rewrite Nat.sub_succ, Nat.sub_0_r in *.
  change (set_nth (x :: y :: l) (S (length l)) p)
    with (x :: set_nth (y :: l) (length l) p).
  rewrite IH by discriminate. reflexivity.
Qed.

(** X17: a TP label of rank 0 that comes after other labels raises
    nothing: its price takes the place of the last entry of the list. *)
Theorem rank_0_overwrites_last (U : ucd) (tps : list float) (m : groups)
    (p : float) :
  tp_token U m = Ret (0, p) ->
  tps <> [] ->
  tp_step U tps m = Ret (removelast tps ++ [p]).
Proof.
  intros T N. rewrite tp_step_token_eq, T. cbn [bind fst snd].
  assert (G : grow tps 0 = tps).
  { unfold grow.
    replace (Z.to_nat (0 - Z.of_nat (length tps))) with 0%nat by lia.
    apply app_nil_r. }
  rewrite G. unfold list_assign.
  assert (L : (0 < length tps)%nat)
    by (destruct tps; [congruence | simpl; lia]).
  change (0 - 1 <? 0) with true. cbv iota.
  destruct (Z.leb_spec 0 (0 - 1 + Z.of_nat (length tps))); [|lia].
  destruct (Z.ltb_spec (0 - 1 + Z.of_nat (length tps))
              (Z.of_nat (length tps))); [|lia].
  cbn [andb].
  replace (Z.to_nat (0 - 1 + Z.of_nat (length tps)))
    with (length tps - 1)%nat by lia.
  rewrite set_nth_last by exact N. reflexivity.
Qed.

(** Levels 1 and 2, then a label of rank 0: the second level is lost. *)
Lemma rank_0_overwrites_last_witness :
  tp_step sample_ucd [dec "0.1"; dec "0.2"] [(2%nat, py "0.9"); (1%nat, py "0")]
  = Ret (removelast [dec "0.1"; dec "0.2"] ++ [dec "0.9"]).
Proof.
  apply rank_0_overwrites_last.
  - vm_compute. reflexivity.
  - discriminate.
Defined.

Lemma rank_0_overwrites_last_example :
  tp_extract sample_ucd (py "TP1: 0.1 | TP2: 0.2 | TP0: 0.9")
  = Ret [dec "0.1"; dec "0.9"].
Proof. vm_compute. reflexivity. Qed.

(** ** When [signal_hash] raises *)

Lemma utf8_encode_char_cases (c : char) :
  (surrogate c = true -> utf8_encode_char c = Raise UnicodeEncodeError)
  /\ (surrogate c = false -> exists b, utf8_encode_char c = Ret b).
Proof.
  unfold utf8_encode_char, surrogate, in_range. split; intros S.
  - pose proof S as S'. apply andb_true_iff in S'. destruct S' as [A _].
    apply Z.leb_le in A.
    destruct (Z.ltb_spec c 0x80); [lia|].
    destruct (Z.ltb_spec c 0x800); [lia|].
    rewrite S. reflexivity.
  - rewrite S. destruct (c <? 0x80); [eauto|].
    destruct (c <? 0x800); [eauto|]. destruct (c <? 0x10000); eauto.
Qed.

Lemma utf8_encode_cases (s : str) :
  (existsb surrogate s = true -> utf8_encode s = Raise UnicodeEncodeError)
  /\ (existsb surrogate s = false -> exists bs, utf8_encode s = Ret bs).
Proof.
  induction s as [|c s [IH1 IH2]]; cbn [existsb utf8_encode].
  - split; [discriminate | eauto].
  - destruct (utf8_encode_char_cases c) as [C1 C2].
    destruct (surrogate c) eqn:S; cbn [orb].
    + rewrite (C1 eq_refl). split; [reflexivity | discriminate].
    + destruct (C2 eq_refl) as [b ->]. cbn [bind]. split.
      * intros X. rewrite (IH1 X). reflexivity.
      * intros X. destruct (IH2 X) as [bs ->]. cbn [bind]. eauto.
Qed.

Lemma ascii_no_surrogate (s : str) :
  forallb is_ascii s = true -> existsb surrogate s = false.
Proof.
  induction s as [|c s IH]; simpl; [reflexivity|]. intros H.
  apply andb_true_iff in H. destruct H as [A H]. rewrite (IH H).
  unfold is_ascii in A. apply andb_true_iff in A. destruct A as [_ A].
  apply Z.ltb_lt in A. unfold surrogate, in_range.
  destruct (Z.leb_spec 0xD800 c); [lia | reflexivity].
Qed.

Lemma digits_from_ascii (fuel : nat) :
  forall n acc, forallb is_ascii acc = true ->
    forallb is_ascii (digits_from fuel n acc) = true.
Proof.
  induction fuel as [|f IH]; intros n acc A; cbn [digits_from]; [exact A|].
  assert (B : forallb is_ascii ((48 + n mod 10) :: acc) = true).
  { cbn [forallb]. rewrite A, andb_true_r. unfold is_ascii.
    pose proof (Z.mod_pos_bound n 10 eq_refl).
    apply andb_true_iff. split; [apply Z.leb_le | apply Z.ltb_lt]; lia. }
  destruct (n <? 10); [exact B | apply IH, B].
Qed.

Lemma str_of_Z_ascii (n : Z) : forallb is_ascii (str_of_Z n) = true.
Proof.
  unfold str_of_Z. destruct (n <? 0).
  - cbn [forallb]. rewrite digits_from_ascii; reflexivity.
  - apply digits_from_ascii. reflexivity.
Qed.

Lemma zeros_ascii (k : Z) : forallb is_ascii (zeros k) = true.
Proof.
  unfold zeros. induction (Z.to_nat k) as [|n IH]; simpl; auto.
Qed.

Lemma format_short_ascii (c p : Z) :
  forallb is_ascii (format_short c p) = true.
Proof.
  unfold format_short.
  pose proof (str_of_Z_ascii c) as D.
  set (ds := str_of_Z c) in *.
  set (decpt := Z.of_nat (length ds) + p).
  clearbody decpt. clearbody ds.
  assert (M : forallb is_ascii
                match ds with
                | [] => []
                | [d0] => [d0]
                | d0 :: (_ :: _) as rest => d0 :: 46 :: rest
                end = true).
  { destruct ds as [|d0 [|d1 rest]]; [reflexivity | exact D |].
    cbn [forallb] in *. apply andb_true_iff in D. destruct D as [D0 D].
    rewrite D0, D. reflexivity. }
  assert (X : forallb is_ascii
                (if Z.abs (decpt - 1) <? 10
                 then 48 :: str_of_Z (Z.abs (decpt - 1))
                 else str_of_Z (Z.abs (decpt - 1))) = true).
  { destruct (Z.abs (decpt - 1) <? 10); cbn [forallb];
      rewrite str_of_Z_ascii; reflexivity. }
  destruct ((decpt <=? -4) || (16 <? decpt)).
  - rewrite !forallb_app, M. clear X.
    destruct (decpt - 1 <? 0); destruct (Z.abs (decpt - 1) <? 10);
      cbn [forallb]; rewrite str_of_Z_ascii; reflexivity.
  - destruct (decpt <=? 0).
    + rewrite !forallb_app, zeros_ascii, D. reflexivity.
    + destruct (decpt <? Z.of_nat (length ds)).
      * rewrite <- (firstn_skipn (Z.to_nat decpt) ds), forallb_app in D.
        apply andb_true_iff in D. destruct D as [D1 D2].
        rewrite !forallb_app. apply andb_true_iff. split; [exact D1|].
        apply andb_true_iff. split; [reflexivity | exact D2].
      * rewrite !forallb_app, zeros_ascii, D. reflexivity.
Qed.

Lemma float_repr_ascii (x : float) : forallb is_ascii (float_repr x) = true.
Proof.
  destruct x as [s|s| |s m e]; unfold float_repr.
  - destruct s; reflexivity.
  - destruct s; reflexivity.
  - reflexivity.
  - destruct (exact_ratio m e) as [n d].
    destruct (shortest_from _ _ _ _ _ _) as [c p].
    rewrite forallb_app, format_short_ascii. destruct s; reflexivity.
Qed.

Lemma list_repr_ascii (l : list float) :
  forallb is_ascii (list_repr l) = true.
Proof.
  unfold list_repr. rewrite !forallb_app. simpl. rewrite andb_true_r.
  induction l as [|x l IH]; [reflexivity|].
  cbn [map join]. destruct (map float_repr l) as [|y ys] eqn:E.
  - apply float_repr_ascii.
  - rewrite !forallb_app, float_repr_ascii, IH. reflexivity.
Qed.

Lemma ascii_app (a b : str) :
  forallb is_ascii a = true -> forallb is_ascii b = true ->
  forallb is_ascii (a ++ b) = true.
Proof. intros A B. rewrite forallb_app, A, B. reflexivity. Qed.

Lemma surrogate_before_ascii (a b t : str) :
  forallb is_ascii t = true ->
  existsb surrogate (a ++ [124] ++ b ++ t) = existsb surrogate (a ++ b).
Proof.
  intros A. rewrite !existsb_app, (ascii_no_surrogate t A).
  cbn [existsb]. rewrite !orb_false_r.
  change (surrogate 124) with false. reflexivity.
Qed.

Lemma surrogate_in_hash_core (sig : Signal) :
  existsb surrogate (hash_core sig)
  = existsb surrogate (symbol sig ++ side sig).
Proof.
  unfold hash_core. apply surrogate_before_ascii.
  apply ascii_app; [reflexivity|].
  apply ascii_app; [apply float_repr_ascii|].
  apply ascii_app; [reflexivity|].
  apply ascii_app; [apply list_repr_ascii|].
  apply ascii_app; [reflexivity | apply list_repr_ascii].
Qed.

(** X18: [signal_hash] raises exactly when the symbol or the side holds a
    surrogate code point, and then [UnicodeEncodeError]; on every other
    Signal it returns a fingerprint. *)
Theorem signal_hash_raises_iff (sig : Signal) :
  (existsb surrogate (symbol sig ++ side sig) = true ->
   signal_hash sig = Raise UnicodeEncodeError)
  /\ (existsb surrogate (symbol sig ++ side sig) = false ->
      exists h, signal_hash sig = Ret h).
Proof.
  rewrite <- surrogate_in_hash_core. unfold signal_hash.
  destruct (utf8_encode_cases (hash_core sig)) as [R1 R2]. split.
  - intros X. rewrite (R1 X). reflexivity.
  - intros X. destruct (R2 X) as [bs ->]. cbn [bind]. eauto.
Qed.

(** Scenario A, and the same Signal for a quote that holds U+D800. *)
Lemma signal_hash_raises_iff_witness :
  signal_hash (with_symbol (scenario_A_signal []) (py "OL" ++ [0xD800]))
    = Raise UnicodeEncodeError
  /\ exists h, signal_hash (scenario_A_signal []) = Ret h.
Proof.
  split.
  - apply (proj1 (signal_hash_raises_iff
                    (with_symbol (scenario_A_signal []) (py "OL" ++ [0xD800])))).
    reflexivity.
  - apply (proj2 (signal_hash_raises_iff (scenario_A_signal []))).
    reflexivity.
Defined.
